(** * InsightRay: response normalisation, score aggregation and the
      study-session calls of [src/inference.py]

    A shallow embedding of the non-UI logic of the repository:
    [_to_dict], [_extract_score], [add_image], [run_classifiers],
    [run_vlm], their payload-returning variants, [compute_urgency] and
    [extract_keywords].

    Modelling conventions.
    - Python values are the inductive [pyval]; a [dict] (and the attribute
      table of an object) is an association list in insertion order, with
      string keys.
    - A Python [float] is a [pyfloat]: the rational it denotes, or one of
      the special values inf, -inf, nan.  The conversion [float(n)] of an
      [int] is the one of binary64: the nearest value with 53 significant
      bits, ties to even, and [OverflowError] beyond the range.  The
      product of finite values is exact.
    - Code that may raise returns a [pyresult]; only exceptions deriving
      from [Exception] are modelled.
    - The remote service is a record of two operations acting on an
      abstract state [World]; code that calls it is written in the monad
      [io].
    - Text is held as bytes; case folding and the word characters of the
      regular expressions are those of ASCII. *)

From Stdlib Require Import List String Ascii ZArith QArith Qreduction Bool Lia.
From Stdlib Require Import Sorted Permutation.
From Stdlib Require Import Lqa.
Import ListNotations.

Set Implicit Arguments.
Local Close Scope Q_scope.
Local Open Scope string_scope.

(** ** Exceptions and results *)

Inductive exn_class : Type :=
| TypeError
| KeyError
| RuntimeError
| OtherException (name : string).

Record exn : Type := mk_exn { exn_type : exn_class; exn_msg : string }.

Definition is_TypeError (e : exn) : bool :=
  match exn_type e with TypeError => true | _ => false end.

Inductive pyresult (A : Type) : Type :=
| Ok (a : A)
| Raise (e : exn).
Arguments Ok {A} a.
Arguments Raise {A} e.

Definition py_bind {A B} (m : pyresult A) (k : A -> pyresult B) : pyresult B :=
  match m with
  | Ok a => k a
  | Raise e => Raise e
  end.

Declare Scope py_scope.
Delimit Scope py_scope with py.
Notation "x <- m ;; k" := (py_bind m (fun x => k))
  (at level 61, m at next level, right associativity) : py_scope.

Definition raised {A} (r : pyresult A) : bool :=
  match r with Ok _ => false | Raise _ => true end.

(** ** Floats *)

Inductive pyfloat : Type :=
| Finite (q : Q)
| PosInf
| NegInf
| NaN.

Definition Qsign_inf (positive : bool) (q : Q) : pyfloat :=
  match Qcompare q 0%Q with
  | Eq => NaN
  | Gt => if positive then PosInf else NegInf
  | Lt => if positive then NegInf else PosInf
  end.

(** [x * y] on floats. *)
Definition fmul (x y : pyfloat) : pyfloat :=
  match x, y with
  | NaN, _ | _, NaN => NaN
  | Finite a, Finite b => Finite (Qred (a * b)%Q)
  | Finite a, PosInf | PosInf, Finite a => Qsign_inf true a
  | Finite a, NegInf | NegInf, Finite a => Qsign_inf false a
  | PosInf, PosInf | NegInf, NegInf => PosInf
  | PosInf, NegInf | NegInf, PosInf => NegInf
  end.

(** [x > y] on floats: false as soon as one side is nan. *)
Definition fgt (x y : pyfloat) : bool :=
  match x, y with
  | NaN, _ | _, NaN => false
  | Finite a, Finite b => negb (Qle_bool a b)
  | PosInf, PosInf => false
  | PosInf, _ => true
  | _, PosInf => false
  | NegInf, _ => false
  | Finite _, NegInf => true
  end.

(** [x == y] on floats. *)
Definition feq (x y : pyfloat) : bool :=
  match x, y with
  | Finite a, Finite b => Qeq_bool a b
  | PosInf, PosInf | NegInf, NegInf => true
  | _, _ => false
  end.

(** [x <= y] on floats. *)
Definition fle (x y : pyfloat) : bool :=
  match x, y with
  | NaN, _ | _, NaN => false
  | Finite a, Finite b => Qle_bool a b
  | NegInf, _ => true
  | _, PosInf => true
  | _, _ => false
  end.

(** ** Python values *)

#[warnings="-register-all"]
Inductive pyval : Type :=
| PNone
| PBool (b : bool)
| PInt (z : Z)
| PFloat (f : pyfloat)
| PStr (s : string)
| PBytes (b : string)
| PList (l : list pyval)
| PDict (d : list (string * pyval))
| PObj (attrs : list (string * pyval)).

(** *** Dictionaries: association lists in insertion order *)

Section Dict.
Variable V : Type.

Fixpoint dict_get (k : string) (d : list (string * V)) : option V :=
  match d with
  | [] => None
  | (k', v) :: r => if String.eqb k' k then Some v else dict_get k r
  end.

Definition dict_mem (k : string) (d : list (string * V)) : bool :=
  match dict_get k d with Some _ => true | None => false end.

(** [d[k] = v]: an existing key keeps its position, a new one goes last. *)
Fixpoint dict_set (d : list (string * V)) (k : string) (v : V)
  : list (string * V) :=
  match d with
  | [] => [(k, v)]
  | (k', v') :: r =>
      if String.eqb k' k then (k', v) :: r else (k', v') :: dict_set r k v
  end.

Definition dict_keys (d : list (string * V)) : list string := map fst d.
End Dict.

(** *** Truth value, [in], subscripting, [isinstance], [float] *)

(** [bool(v)].  Objects are the plain kind, true by default. *)
Definition py_truthy (v : pyval) : bool :=
  match v with
  | PNone => false
  | PBool b => b
  | PInt z => negb (Z.eqb z 0)
  | PFloat (Finite q) => negb (Qeq_bool q 0%Q)
  | PFloat _ => true
  | PStr s => negb (String.eqb s EmptyString)
  | PBytes b => negb (String.eqb b EmptyString)
  | PList l => match l with [] => false | _ => true end
  | PDict d => match d with [] => false | _ => true end
  | PObj _ => true
  end.

(** [a or b]. *)
Definition py_or (a b : pyval) : pyval := if py_truthy a then a else b.

Fixpoint is_substring (needle hay : string) : bool :=
  String.prefix needle hay
  || match hay with
     | EmptyString => false
     | String _ rest => is_substring needle rest
     end.

Definition is_str (s : string) (v : pyval) : bool :=
  match v with PStr t => String.eqb t s | _ => false end.

(** [key in container] for a string [key]. *)
Definition py_contains (key : string) (container : pyval) : pyresult bool :=
  match container with
  | PDict d => Ok (dict_mem key d)
  | PStr s => Ok (is_substring key s)
  | PList l => Ok (existsb (is_str key) l)
  | _ => Raise (mk_exn TypeError "argument is not iterable")
  end.

(** [container[key]] for a string [key]. *)
Definition py_getitem (container : pyval) (key : string) : pyresult pyval :=
  match container with
  | PDict d =>
      match dict_get key d with
      | Some v => Ok v
      | None => Raise (mk_exn KeyError key)
      end
  | PStr _ => Raise (mk_exn TypeError "string indices must be integers")
  | PList _ => Raise (mk_exn TypeError "list indices must be integers or slices, not str")
  | _ => Raise (mk_exn TypeError "object is not subscriptable")
  end.

(** [isinstance(v, (int, float))]; [bool] is a subclass of [int]. *)
Definition isinstance_int_float (v : pyval) : bool :=
  match v with
  | PBool _ | PInt _ | PFloat _ => true
  | _ => false
  end.

Definition isinstance_dict (v : pyval) : bool :=
  match v with PDict _ => true | _ => false end.

Definition isinstance_str (v : pyval) : bool :=
  match v with PStr _ => true | _ => false end.

(** [n] rounded to 53 significant bits, ties to even: with [e] the number
    of bits of [n] beyond 53, the quotient by [2 ^ e] goes up when the
    remainder is above the half, or is the half and the quotient is odd. *)
Definition round_binary64 (n : Z) : Z :=
  (let a := Z.abs n in
   let e := Z.log2 a - 52 in
   if e <=? 0 then n
   else
     let q := a / 2 ^ e in
     let rem := a mod 2 ^ e in
     let half := 2 ^ (e - 1) in
     let q' := if (half <? rem) || ((rem =? half) && Z.odd q) then q + 1 else q in
     Z.sgn n * (q' * 2 ^ e))%Z.

Definition overflow_error : exn :=
  mk_exn (OtherException "OverflowError") "int too large to convert to float".

(** [float(n)] for an [int]: the nearest binary64; [OverflowError] when
    that is beyond the largest one, [2 ^ 1024 - 2 ^ 971]. *)
Definition float_of_int (n : Z) : pyresult pyfloat :=
  let r := round_binary64 n in
  if (2 ^ 1024 <=? Z.abs r)%Z then Raise overflow_error
  else Ok (Finite (inject_Z r)).

(** [float(v)] on the values the module passes to it, numbers; on anything
    else the model raises (the conversion of text is not modelled). *)
Definition py_float (v : pyval) : pyresult pyfloat :=
  match v with
  | PBool b => Ok (Finite (if b then 1%Q else 0%Q))
  | PInt z => float_of_int z
  | PFloat f => Ok f
  | _ => Raise (mk_exn TypeError "float() argument must be a string or a real number")
  end.

(** [hasattr(v, name)] and [getattr(v, name, default)]: only objects carry
    attributes beyond the methods of the built-in types. *)
Definition py_hasattr (v : pyval) (name : string) : bool :=
  match v with
  | PObj attrs => dict_mem name attrs
  | _ => false
  end.

Definition py_getattr (v : pyval) (name : string) (default : pyval) : pyval :=
  match v with
  | PObj attrs =>
      match dict_get name attrs with Some x => x | None => default end
  | _ => default
  end.

(** ** Score extraction *)

Local Open Scope py_scope.

(** [key in c and isinstance(c[key], T)], with the short circuit. *)
Definition has_field_of (T : pyval -> bool) (key : string) (c : pyval)
  : pyresult bool :=
  present <- py_contains key c ;;
  if present then v <- py_getitem c key ;; Ok (T v) else Ok false.

Definition _extract_score (payload : pyval) : pyresult (option pyfloat) :=
  top <- has_field_of isinstance_int_float "score" payload ;;
  if top then
    v <- py_getitem payload "score" ;;
    s <- py_float v ;;
    Ok (Some s)
  else
    nested <- has_field_of isinstance_dict "response" payload ;;
    if nested then
      inner <- py_getitem payload "response" ;;
      deep <- has_field_of isinstance_int_float "score" inner ;;
      if deep then
        v <- py_getitem inner "score" ;;
        s <- py_float v ;;
        Ok (Some s)
      else Ok None
    else Ok None.

(** The number that a numeric value denotes, for statements: [None] on a
    value that is not an [int] or a [float]. *)
Definition number_value (v : pyval) : option pyfloat :=
  match v with
  | PBool b => Some (Finite (if b then 1%Q else 0%Q))
  | PInt z => Some (Finite (inject_Z z))
  | PFloat f => Some f
  | _ => None
  end.

(** A numeric ["score"] field of a mapping. *)
Definition numeric_score (d : list (string * pyval)) : option pyfloat :=
  match dict_get "score" d with
  | Some v => number_value v
  | None => None
  end.

(** ** [json.loads]

    The decoder of the Python standard library, on text held as UTF-8
    bytes: whitespace, the literals (with the non-standard [NaN],
    [Infinity] and [-Infinity] that it accepts), numbers, strings with
    their escapes (strict mode: no raw control character), arrays and
    objects (a repeated key keeps its first position and its last value).
    [None] stands for any exception the decoder raises.  The interpreter's
    recursion limit and its limit on the length of integer literals are
    outside the model. *)

Local Open Scope char_scope.

(** The double quote. *)
Definition quote : ascii := "034".

Definition is_ws (c : ascii) : bool :=
  Ascii.eqb c " " || Ascii.eqb c "009" || Ascii.eqb c "010" || Ascii.eqb c "013".

Fixpoint skip_ws (s : string) : string :=
  match s with
  | String c r => if is_ws c then skip_ws r else s
  | EmptyString => s
  end.

Definition digit_value (c : ascii) : option Z :=
  let n := Z.of_N (N_of_ascii c) in
  if (48 <=? n)%Z && (n <=? 57)%Z then Some (n - 48)%Z else None.

Definition hex_value (c : ascii) : option N :=
  let n := N_of_ascii c in
  if (48 <=? n)%N && (n <=? 57)%N then Some (n - 48)%N
  else if (65 <=? n)%N && (n <=? 70)%N then Some (n - 55)%N
  else if (97 <=? n)%N && (n <=? 102)%N then Some (n - 87)%N
  else None.

Definition hex4 (a b c d : ascii) : option N :=
  match hex_value a, hex_value b, hex_value c, hex_value d with
  | Some x, Some y, Some z, Some w => Some (((x * 16 + y) * 16 + z) * 16 + w)%N
  | _, _, _, _ => None
  end.

(** The UTF-8 bytes of a code point (a lone surrogate gets the three-byte
    form). *)
Definition utf8 (cp : N) (tail : string) : string :=
  let b (n : N) := ascii_of_N n in
  (if cp <? 128 then String (b cp) tail
   else if cp <? 2048 then
     String (b (192 + cp / 64)) (String (b (128 + cp mod 64)) tail)
   else if cp <? 65536 then
     String (b (224 + cp / 4096))
       (String (b (128 + (cp / 64) mod 64)) (String (b (128 + cp mod 64)) tail))
   else
     String (b (240 + cp / 262144))
       (String (b (128 + (cp / 4096) mod 64))
          (String (b (128 + (cp / 64) mod 64)) (String (b (128 + cp mod 64)) tail))))%N.

Definition is_high_surrogate (cp : N) : bool := (55296 <=? cp)%N && (cp <=? 56319)%N.
Definition is_low_surrogate (cp : N) : bool := (56320 <=? cp)%N && (cp <=? 57343)%N.

Definition flush (pending : option N) (tail : string) : string :=
  match pending with Some hi => utf8 hi tail | None => tail end.

Definition simple_escape (c : ascii) : option ascii :=
  if Ascii.eqb c quote then Some quote
  else if Ascii.eqb c "\" then Some "\"
  else if Ascii.eqb c "/" then Some "/"
  else if Ascii.eqb c "b" then Some "008"
  else if Ascii.eqb c "f" then Some "012"
  else if Ascii.eqb c "n" then Some "010"
  else if Ascii.eqb c "r" then Some "013"
  else if Ascii.eqb c "t" then Some "009"
  else None.

(** The body of a string, after its opening quote: the decoded text and what
    follows the closing quote.  [pending] is a high surrogate just read by
    a [\u] escape, waiting for its low half. *)
Fixpoint scanstring (pending : option N) (s : string) : option (string * string) :=
  match s with
  | EmptyString => None
  | String c r =>
      if Ascii.eqb c quote then Some (flush pending EmptyString, r)
      else if Ascii.eqb c "\" then
        match r with
        | EmptyString => None
        | String e r1 =>
            if Ascii.eqb e "u" then
              match r1 with
              | String h1 (String h2 (String h3 (String h4 r2))) =>
                  match hex4 h1 h2 h3 h4 with
                  | None => None
                  | Some uni =>
                      match pending with
                      | Some hi =>
                          if is_low_surrogate uni then
                            match scanstring None r2 with
                            | Some (body, rest) =>
                                Some (utf8 (65536 + (hi - 55296) * 1024 + (uni - 56320))%N body, rest)
                            | None => None
                            end
                          else
                            match scanstring (if is_high_surrogate uni then Some uni else None) r2 with
                            | Some (body, rest) =>
                                Some (utf8 hi (if is_high_surrogate uni then body else utf8 uni body), rest)
                            | None => None
                            end
                      | None =>
                          match scanstring (if is_high_surrogate uni then Some uni else None) r2 with
                          | Some (body, rest) =>
                              Some (if is_high_surrogate uni then body else utf8 uni body, rest)
                          | None => None
                          end
                      end
                  end
              | _ => None
              end
            else
              match simple_escape e with
              | None => None
              | Some x =>
                  match scanstring None r1 with
                  | Some (body, rest) => Some (flush pending (String x body), rest)
                  | None => None
                  end
              end
        end
      else if (N_of_ascii c <? 32)%N then None
      else
        match scanstring None r with
        | Some (body, rest) => Some (flush pending (String c body), rest)
        | None => None
        end
  end.

Fixpoint span_digits (s : string) : list Z * string :=
  match s with
  | String c r =>
      match digit_value c with
      | Some d => let (ds, rest) := span_digits r in (d :: ds, rest)
      | None => ([], s)
      end
  | EmptyString => ([], s)
  end.

Definition Z_of_digits (ds : list Z) : Z :=
  fold_left (fun acc d => (acc * 10 + d)%Z) ds 0%Z.

(** The integer part, an optional minus sign then either a single zero or
    a run of digits that does not start with zero: its sign, its digits,
    the rest. *)
Definition match_integer (s : string) : option (bool * list Z * string) :=
  let (negative, s1) :=
    match s with
    | String c r => if Ascii.eqb c "-" then (true, r) else (false, s)
    | EmptyString => (false, s)
    end in
  match s1 with
  | String c r =>
      if Ascii.eqb c "0" then Some (negative, [0%Z], r)
      else match span_digits s1 with
           | ([], _) => None
           | (ds, rest) => Some (negative, ds, rest)
           end
  | EmptyString => None
  end.

(** The optional fraction: a dot and at least one digit. *)
Definition match_frac (s : string) : option (list Z) * string :=
  match s with
  | String c r =>
      if Ascii.eqb c "." then
        match span_digits r with
        | ([], _) => (None, s)
        | (ds, rest) => (Some ds, rest)
        end
      else (None, s)
  | EmptyString => (None, s)
  end.

(** The optional exponent: e or E, an optional sign, at least one digit. *)
Definition match_exp (s : string) : option Z * string :=
  match s with
  | String c r =>
      if Ascii.eqb c "e" || Ascii.eqb c "E" then
        let (negative, r1) :=
          match r with
          | String g r' =>
              if Ascii.eqb g "-" then (true, r')
              else if Ascii.eqb g "+" then (false, r')
              else (false, r)
          | EmptyString => (false, r)
          end in
        match span_digits r1 with
        | ([], _) => (None, s)
        | (ds, rest) =>
            (Some (if negative then (- Z_of_digits ds)%Z else Z_of_digits ds), rest)
        end
      else (None, s)
  | EmptyString => (None, s)
  end.

(** The decimal [m * 10^e] as a float. *)
Definition decimal (m e : Z) : pyfloat :=
  if (0 <=? e)%Z then Finite (inject_Z (m * 10 ^ e))
  else Finite (Qred (Qmake m (Z.to_pos (10 ^ (- e))))).

Definition match_number (s : string) : option (pyval * string) :=
  match match_integer s with
  | None => None
  | Some (negative, ds, rest) =>
      let sign (z : Z) := if negative then (- z)%Z else z in
      let (frac, rest1) := match_frac rest in
      let (exp, rest2) := match_exp rest1 in
      match frac, exp with
      | None, None => Some (PInt (sign (Z_of_digits ds)), rest2)
      | _, _ =>
          let fs := match frac with Some fs => fs | None => [] end in
          let e := match exp with Some e => e | None => 0%Z end in
          Some (PFloat (decimal (sign (Z_of_digits (ds ++ fs)%list))
                                (e - Z.of_nat (List.length fs))),
                rest2)
      end
  end.

Local Close Scope char_scope.

(** [s] starts with [lit]: what follows it. *)
Fixpoint strip_prefix (lit s : string) : option string :=
  match lit, s with
  | EmptyString, _ => Some s
  | String a lit', String b s' =>
      if Ascii.eqb a b then strip_prefix lit' s' else None
  | String _ _, EmptyString => None
  end.

Definition scan_constant (s : string) : option (pyval * string) :=
  match strip_prefix "NaN" s with
  | Some r => Some (PFloat NaN, r)
  | None =>
  match strip_prefix "Infinity" s with
  | Some r => Some (PFloat PosInf, r)
  | None =>
  match strip_prefix "-Infinity" s with
  | Some r => Some (PFloat NegInf, r)
  | None => None
  end end end.

Definition scan_atom (s : string) : option (pyval * string) :=
  match strip_prefix "null" s with
  | Some r => Some (PNone, r)
  | None =>
  match strip_prefix "true" s with
  | Some r => Some (PBool true, r)
  | None =>
  match strip_prefix "false" s with
  | Some r => Some (PBool false, r)
  | None =>
  match match_number s with
  | Some x => Some x
  | None => scan_constant s
  end end end end.

(** One value, then the members of an object after the opening quote of a
    key, then the items of an array.  Every call spends one unit of [fuel]
    and consumes at least one character before the next, so that the fuel
    given by [json_loads] is never exhausted ([decoder_fuel_enough]). *)
Fixpoint scan_once (fuel : nat) (s : string) {struct fuel}
  : option (pyval * string) :=
  match fuel with
  | O => None
  | S n =>
      match s with
      | EmptyString => None
      | String c r =>
          if Ascii.eqb c quote then
            match scanstring None r with
            | Some (txt, rest) => Some (PStr txt, rest)
            | None => None
            end
          else if Ascii.eqb c "{"%char then
            match skip_ws r with
            | String c1 r1 =>
                if Ascii.eqb c1 "}"%char then Some (PDict [], r1)
                else if Ascii.eqb c1 quote then JSONObject n r1 []
                else None
            | EmptyString => None
            end
          else if Ascii.eqb c "["%char then
            match skip_ws r with
            | String c1 r1 =>
                if Ascii.eqb c1 "]"%char then Some (PList [], r1)
                else JSONArray n (String c1 r1) []
            | EmptyString => None
            end
          else scan_atom s
      end
  end

with JSONObject (fuel : nat) (s : string) (pairs : list (string * pyval))
       {struct fuel} : option (pyval * string) :=
  match fuel with
  | O => None
  | S n =>
      match scanstring None s with
      | None => None
      | Some (key, rest) =>
          match skip_ws rest with
          | String c r =>
              if Ascii.eqb c ":"%char then
                match scan_once n (skip_ws r) with
                | None => None
                | Some (value, rest1) =>
                    let pairs' := dict_set pairs key value in
                    match skip_ws rest1 with
                    | String c1 r1 =>
                        if Ascii.eqb c1 "}"%char then Some (PDict pairs', r1)
                        else if Ascii.eqb c1 ","%char then
                          match skip_ws r1 with
                          | String c2 r2 =>
                              if Ascii.eqb c2 quote then JSONObject n r2 pairs'
                              else None
                          | EmptyString => None
                          end
                        else None
                    | EmptyString => None
                    end
                end
              else None
          | EmptyString => None
          end
      end
  end

with JSONArray (fuel : nat) (s : string) (values : list pyval)
       {struct fuel} : option (pyval * string) :=
  match fuel with
  | O => None
  | S n =>
      match scan_once n s with
      | None => None
      | Some (value, rest) =>
          let values' := (values ++ [value])%list in
          match skip_ws rest with
          | String c r =>
              if Ascii.eqb c "]"%char then Some (PList values', r)
              else if Ascii.eqb c ","%char then JSONArray n (skip_ws r) values'
              else None
          | EmptyString => None
          end
      end
  end.

Definition json_loads (s : string) : option pyval :=
  match scan_once (2 * String.length s + 2) (skip_ws s) with
  | Some (v, rest) =>
      match skip_ws rest with
      | EmptyString => Some v
      | String _ _ => None
      end
  | None => None
  end.

(** ** Response normalisation *)

Fixpoint _to_dict (maybe_obj : pyval) : pyval :=
  match maybe_obj with
  | PObj attrs =>
      (fix response (l : list (string * pyval)) : pyval :=
         match l with
         | [] => PNone
         | (k, x) :: r => if String.eqb k "response" then _to_dict x else response r
         end) attrs
  | PDict _ => maybe_obj
  | PStr s =>
      match json_loads s with
      | Some v => v
      | None => PNone
      end
  | _ => PNone
  end.

(** The JSON text of a string that needs no escape. *)
Definition quoted (s : string) : string :=
  String quote (s ++ String quote EmptyString).

(** ** The remote service and the monad of the code that calls it *)

(** The arguments of a call: positional, then by keyword. *)
Record call : Type := mk_call { args : list pyval; kwargs : list (string * pyval) }.

Definition io (World A : Type) : Type := World -> pyresult A * World.

Record HOPPR (World : Type) : Type := mk_HOPPR {
  add_study_image : call -> io World pyval;
  prompt_model : call -> io World pyval
}.

Section IO.
Variable World : Type.

Definition io_ret {A} (a : A) : io World A := fun w => (Ok a, w).

Definition io_raise {A} (e : exn) : io World A := fun w => (Raise e, w).

Definition io_bind {A B} (m : io World A) (k : A -> io World B) : io World B :=
  fun w =>
    match m w with
    | (Ok a, w') => k a w'
    | (Raise e, w') => (Raise e, w')
    end.

Definition io_lift {A} (r : pyresult A) : io World A := fun w => (r, w).

(** [try: m  except <catches> as e: handler e]; an exception that the
    clause does not catch goes on to the caller. *)
Definition io_try {A} (m : io World A) (catches : exn -> bool)
           (handler : exn -> io World A) : io World A :=
  fun w =>
    match m w with
    | (Ok a, w') => (Ok a, w')
    | (Raise e, w') => if catches e then handler e w' else (Raise e, w')
    end.

(** [for x in l: acc = body acc x]. *)
Fixpoint io_for {A X} (l : list X) (body : A -> X -> io World A) (acc : A)
  : io World A :=
  match l with
  | [] => io_ret acc
  | x :: r => io_bind (body acc x) (io_for r body)
  end.
End IO.

Arguments io_ret {World A} a.
Arguments io_raise {World A} e.
Arguments io_lift {World A} r.

Declare Scope io_scope.
Delimit Scope io_scope with io.
Notation "x <- m ;; k" := (io_bind m (fun x => k))
  (at level 61, m at next level, right associativity) : io_scope.
Notation "'try' m 'except' c 'as' e '=>' h" := (io_try m c (fun e => h))
  (at level 10, m at level 200, c at level 9, e name, h at level 200) : io_scope.

(** [except Exception]: every modelled exception. *)
Definition Exception (e : exn) : bool := true.

(** ** Constants of the module *)

Definition FINDING_MODELS : list (string * option string) :=
  [("Atelectasis", Some "mc_chestradiography_atelectasis:v1.20250828");
   ("Cardiomegaly", Some "mc_chestradiography_cardiomegaly:v1.20250828");
   ("Pleural Effusion", Some "mc_chestradiography_pleural_effusion:v1.20250828");
   ("Pneumothorax", Some "mc_chestradiography_pneumothorax:v1.20250828");
   ("Consolidation", Some "mc_chestradiography_air_space_opacity:v1.20250828");
   ("Lung Opacity", Some "mc_chestradiography_air_space_opacity:v1.20250828");
   ("Infiltration", Some "mc_chestradiography_air_space_opacity:v1.20250828");
   ("ILD", Some "mc_chestradiography_interstitial_thickening:v1.20250828");
   ("Pulmonary Fibrosis", Some "mc_chestradiography_interstitial_thickening:v1.20250828");
   ("Aortic Enlargement", None);
   ("Calcification", None);
   ("Pleural Thickening", None);
   ("Normal", None)].

Definition CRITICAL_FINDINGS : list string := ["Pneumothorax"; "Pleural Effusion"].

Definition VLM_MODEL_ID : string := "cxr-vlm-experimental".

Definition in_set (k : string) (s : list string) : bool := existsb (String.eqb k) s.

(** ** The study session *)

Definition ScoreMap : Type := list (string * pyfloat).

(** An optional model identifier that passes the test [if model_id]:
    neither [None] nor the empty text. *)
Definition given_model (model_id : option string) : option string :=
  match model_id with
  | Some m => if String.eqb m EmptyString then None else Some m
  | None => None
  end.

Definition classifier_call (study_id model_id : string) : call :=
  mk_call [PStr study_id]
          [("model", PStr model_id);
           ("prompt", PStr "ignored for classification");
           ("organization", PStr "hoppr")].

Definition vlm_call (study_id : string) : call :=
  mk_call [PStr study_id]
          [("model", PStr VLM_MODEL_ID);
           ("prompt", PStr "Provide a concise radiology-style description of key findings.")].

Definition upload_positional (study_id filename data : string) : call :=
  mk_call [PStr study_id; PStr filename; PBytes data] [].

Definition upload_kw_data (study_id filename data : string) : call :=
  mk_call [] [("study_id", PStr study_id); ("reference", PStr filename); ("data", PBytes data)].

Definition upload_kw_image_bytes (study_id filename data : string) : call :=
  mk_call [] [("study_id", PStr study_id); ("reference", PStr filename);
              ("image_bytes", PBytes data)].

(** [_to_dict(resp) or _to_dict(getattr(resp, "response", resp))]. *)
Definition normalized (resp : pyval) : pyval :=
  py_or (_to_dict resp) (_to_dict (py_getattr resp "response" resp)).

Definition note_payload : pyval := PDict [("note", PStr "empty or unparsable payload")].

Section Session.
Variable World : Type.
(** [get_hoppr()]: the client, or the error of a missing configuration. *)
Variable get_hoppr : pyresult (HOPPR World).

Local Open Scope io_scope.

Definition add_image (study_id filename data : string) : io World unit :=
  hoppr <- io_lift get_hoppr ;;
  try (_ <- add_study_image hoppr (upload_positional study_id filename data) ;;
       io_ret tt)
  except is_TypeError as _e =>
  try (_ <- add_study_image hoppr (upload_kw_data study_id filename data) ;;
       io_ret tt)
  except is_TypeError as _e =>
  try (_ <- add_study_image hoppr (upload_kw_image_bytes study_id filename data) ;;
       io_ret tt)
  except is_TypeError as e =>
    io_raise (mk_exn RuntimeError
                ("add_study_image signature not recognized: " ++ exn_msg e)).

(** The body of the loop of [run_classifiers]. *)
Definition classify (hoppr : HOPPR World) (study_id : string)
           (scores : ScoreMap) (item : string * option string) : io World ScoreMap :=
  let (name, model_id) := item in
  match given_model model_id with
  | None => io_ret scores
  | Some m =>
      try (resp <- prompt_model hoppr (classifier_call study_id m) ;;
           let payload := normalized resp in
           if py_truthy payload then
             s <- io_lift (_extract_score payload) ;;
             match s with
             | Some x => io_ret (dict_set scores name x)
             | None => io_ret scores
             end
           else io_ret scores)
      except Exception as _e => io_ret scores
  end.

Definition run_classifiers (study_id : string) (models : list (string * option string))
  : io World ScoreMap :=
  hoppr <- io_lift get_hoppr ;;
  io_for models (classify hoppr study_id) [].

(** The "findings" text is looked up with the test
    [key in c and isinstance(c[key], str)], at the top level and then in a
    nested "response" mapping. *)
Definition run_vlm (study_id : string) : io World pyval :=
  hoppr <- io_lift get_hoppr ;;
  try (resp <- prompt_model hoppr (vlm_call study_id) ;;
       let payload := normalized resp in
       if isinstance_dict payload then
         top <- io_lift (has_field_of isinstance_str "findings" payload) ;;
         if top then io_lift (py_getitem payload "findings")
         else
           nested <- io_lift (has_field_of isinstance_dict "response" payload) ;;
           if nested then
             inner <- io_lift (py_getitem payload "response") ;;
             deep <- io_lift (has_field_of isinstance_str "findings" inner) ;;
             if deep then io_lift (py_getitem inner "findings")
             else io_ret (PStr EmptyString)
           else io_ret (PStr EmptyString)
       else io_ret (PStr EmptyString))
  except Exception as _e => io_ret (PStr EmptyString).

(** The body of the loop of [run_classifiers_with_payload]; no statement
    can raise after the assignment to [scores], so the handler sees the
    score map of the start of the iteration. *)
Definition classify_with_payload (hoppr : HOPPR World) (study_id : string)
           (state : ScoreMap * list (string * pyval)) (item : string * option string)
  : io World (ScoreMap * list (string * pyval)) :=
  let (scores, payloads) := state in
  let (name, model_id) := item in
  match given_model model_id with
  | None => io_ret (scores, payloads)
  | Some m =>
      try (resp <- prompt_model hoppr (classifier_call study_id m) ;;
           let payload := py_or (normalized resp) (PDict []) in
           s <- (if isinstance_dict payload then io_lift (_extract_score payload)
                 else io_ret None) ;;
           let scores' := match s with
                          | Some x => dict_set scores name x
                          | None => scores
                          end in
           io_ret (scores',
                   dict_set payloads name
                     (if py_truthy payload then payload else note_payload)))
      except Exception as e =>
        io_ret (scores, dict_set payloads name (PDict [("error", PStr (exn_msg e))]))
  end.

Definition run_classifiers_with_payload (study_id : string)
           (models : list (string * option string))
  : io World (ScoreMap * list (string * pyval)) :=
  hoppr <- io_lift get_hoppr ;;
  io_for models (classify_with_payload hoppr study_id) ([], []).
End Session.

(** ** Urgency *)

(** [max(vals)] for the non-empty list [x :: xs]: the running best is
    replaced by an item only when [item > best]. *)
Definition py_max (x : pyfloat) (xs : list pyfloat) : pyfloat :=
  fold_left (fun best item => if fgt item best then item else best) xs x.

Definition weight (k : string) : pyfloat :=
  if in_set k CRITICAL_FINDINGS then Finite (5 # 4) else Finite 1.

Definition weighted (kv : string * pyfloat) : pyfloat := fmul (weight (fst kv)) (snd kv).

Definition compute_urgency (scores : ScoreMap) : pyfloat :=
  let vals := map weighted scores in
  match vals with
  | [] => Finite 0
  | x :: xs => py_max x xs
  end.

(** ** Keyword highlights *)

Local Open Scope char_scope.

Definition lower_char (c : ascii) : ascii :=
  let n := N_of_ascii c in
  if (65 <=? n)%N && (n <=? 90)%N then ascii_of_N (n + 32) else c.

(** [s.lower()]. *)
Fixpoint lower (s : string) : string :=
  match s with
  | EmptyString => EmptyString
  | String c r => String (lower_char c) (lower r)
  end.

(** The class [\w]. *)
Definition is_word_char (c : ascii) : bool :=
  let n := N_of_ascii c in
  ((48 <=? n)%N && (n <=? 57)%N) || ((65 <=? n)%N && (n <=? 90)%N)
  || ((97 <=? n)%N && (n <=? 122)%N) || Ascii.eqb c "_".

Definition word_at (o : option ascii) : bool :=
  match o with
  | Some c => is_word_char c
  | None => false
  end.

(** [\b] between two neighbours, [None] being an end of the text. *)
Definition at_boundary (before after : option ascii) : bool :=
  xorb (word_at before) (word_at after).

Definition first_char (s : string) : option ascii :=
  match s with
  | String c _ => Some c
  | EmptyString => None
  end.

Fixpoint last_char (before : option ascii) (s : string) : option ascii :=
  match s with
  | String c r => last_char (Some c) r
  | EmptyString => before
  end.

Local Close Scope char_scope.

(** The pattern [\b k \b], for a literal [k], matched at the head of
    [text], which [before] precedes. *)
Definition match_here (before : option ascii) (k text : string) : bool :=
  match strip_prefix k text with
  | Some rest =>
      at_boundary before (first_char text)
      && at_boundary (last_char before k) (first_char rest)
  | None => false
  end.

Fixpoint search_from (before : option ascii) (k text : string) : bool :=
  match_here before k text
  || match text with
     | String c r => search_from (Some c) k r
     | EmptyString => false
     end.

(** [re.search(rf"\b{k}\b", text)] as a truth value, for a keyword
    without special characters. *)
Definition re_search_word (k text : string) : bool := search_from None k text.

Definition keywords : list string :=
  ["pneumothorax"; "effusion"; "cardiomegaly"; "opacity"; "consolidation";
   "infiltrate"; "interstitial"; "fibrosis"; "calcification"; "pleural thickening";
   "aorta"; "uncoiling"; "enlarged"; "nodule"; "mass"; "edema"; "congestion"].

(** [set(hits)]: the distinct elements. *)
Fixpoint py_set (l : list string) : list string :=
  match l with
  | [] => []
  | x :: r => if in_set x r then py_set r else x :: py_set r
  end.

Fixpoint insert_sorted (x : string) (l : list string) : list string :=
  match l with
  | [] => [x]
  | y :: r => if String.ltb y x then y :: insert_sorted x r else x :: l
  end.

(** [sorted(l)]. *)
Definition py_sorted (l : list string) : list string :=
  fold_right insert_sorted [] l.

Definition extract_keywords (vlm_text : string) : list string :=
  if String.eqb vlm_text EmptyString then []
  else
    let lt := lower vlm_text in
    let hits := filter (fun k => re_search_word k lt) keywords in
    py_sorted (py_set hits).

(** ** Notions used in the statements *)

Definition not_nan (x : pyfloat) : Prop := x <> NaN.

(** A score map whose scores are numbers. *)
Definition numeric_scores (scores : ScoreMap) : Prop :=
  Forall (fun kv => not_nan (snd kv)) scores.

(** The two weights of [compute_urgency]. *)
Definition is_weight (w : pyfloat) : Prop := w = Finite (5 # 4) \/ w = Finite 1.

(** [m] is an element of [l] that no element exceeds. *)
Definition is_maximum (m : pyfloat) (l : list pyfloat) : Prop :=
  In m l /\ forall x, In x l -> fle x m = true.

Definition is_critical (kv : string * pyfloat) : bool := in_set (fst kv) CRITICAL_FINDINGS.

(** The scores of the critical findings, and those of the others, in the
    order of the map. *)
Definition critical_scores (scores : ScoreMap) : list pyfloat :=
  map snd (filter is_critical scores).

Definition other_scores (scores : ScoreMap) : list pyfloat :=
  map snd (filter (fun kv => negb (is_critical kv)) scores).

(** *** Observing the remote service *)

(** A remote whose operations answer by their arguments alone. *)
Definition fixed_remote (upload reply : call -> pyresult pyval) : HOPPR unit :=
  mk_HOPPR (fun c w => (upload c, w)) (fun c w => (reply c, w)).

(** The same remote, keeping the list of the calls made with their
    outcomes. *)
Definition trace : Type := list (call * pyresult pyval).

Definition logged {World : Type} (hoppr : HOPPR World) : HOPPR (World * trace) :=
  mk_HOPPR
    (fun c wl =>
       let (r, w') := add_study_image hoppr c (fst wl) in
       (r, (w', (snd wl ++ [(c, r)])%list)))
    (fun c wl =>
       let (r, w') := prompt_model hoppr c (fst wl) in
       (r, (w', (snd wl ++ [(c, r)])%list))).

(** The two operations of the client. *)
Inductive operation : Type :=
| AddStudyImage
| PromptModel.

(** The list of the calls made, each with the operation called. *)
Definition journal : Type := list (operation * call).

Definition journaled {World : Type} (hoppr : HOPPR World) : HOPPR (World * journal) :=
  mk_HOPPR
    (fun c wj =>
       let (r, w') := add_study_image hoppr c (fst wj) in
       (r, (w', (snd wj ++ [(AddStudyImage, c)])%list)))
    (fun c wj =>
       let (r, w') := prompt_model hoppr c (fst wj) in
       (r, (w', (snd wj ++ [(PromptModel, c)])%list))).

(** The three call styles of [add_image], in the order of the source. *)
Definition upload_variants (study_id filename data : string) : list call :=
  [upload_positional study_id filename data;
   upload_kw_data study_id filename data;
   upload_kw_image_bytes study_id filename data].

(** The outcome is a [TypeError]. *)
Definition signature_mismatch (r : pyresult pyval) : Prop :=
  exists e, r = Raise e /\ is_TypeError e = true.

(** An upload operation that knows the keyword [image_bytes] only. *)
Definition upload_image_bytes_only (c : call) : pyresult pyval :=
  match args c with
  | [] => if dict_mem "image_bytes" (kwargs c) then Ok PNone
          else Raise (mk_exn TypeError "unexpected keyword argument")
  | _ => Raise (mk_exn TypeError "takes 1 positional argument")
  end.

(** An upload operation that fails on a positional call with an error of
    the transport, and accepts the calls by keyword. *)
Definition upload_keywords_only (c : call) : pyresult pyval :=
  match args c with
  | [] => Ok PNone
  | _ => Raise (mk_exn (OtherException "ConnectionError") "connection reset")
  end.

Definition no_reply (c : call) : pyresult pyval :=
  Raise (mk_exn (OtherException "HOPPRError") "no model").

(** *** What one reply yields *)

(** The score that a normalised payload yields, if any. *)
Definition payload_score (payload : pyval) : option pyfloat :=
  if py_truthy payload then
    match _extract_score payload with
    | Ok (Some s) => Some s
    | _ => None
    end
  else None.

(** The score of one finding, from the outcome of its own call. *)
Definition finding_score (reply : call -> pyresult pyval) (study_id : string)
           (model_id : option string) : option pyfloat :=
  match given_model model_id with
  | None => None
  | Some m =>
      match reply (classifier_call study_id m) with
      | Ok resp => payload_score (normalized resp)
      | Raise _ => None
      end
  end.

(** The score map after one finding: its score is recorded if there is
    one. *)
Definition record_score (scores : ScoreMap) (name : string) (s : option pyfloat)
  : ScoreMap :=
  match s with
  | Some x => dict_set scores name x
  | None => scores
  end.

Definition str_field (key : string) (d : list (string * pyval)) : option string :=
  match dict_get key d with
  | Some (PStr s) => Some s
  | _ => None
  end.

(** The "findings" text of a normalised payload: at the top level, else
    one level down under "response", else the empty text. *)
Definition findings_text (payload : pyval) : string :=
  match payload with
  | PDict d =>
      match str_field "findings" d with
      | Some s => s
      | None =>
          match dict_get "response" d with
          | Some (PDict inner) =>
              match str_field "findings" inner with
              | Some s => s
              | None => EmptyString
              end
          | _ => EmptyString
          end
      end
  | _ => EmptyString
  end.

(** The narrative that the outcome of the call yields. *)
Definition narrative_of (r : pyresult pyval) : string :=
  match r with
  | Ok resp => findings_text (normalized resp)
  | Raise _ => EmptyString
  end.

Definition map_result {A B} (f : A -> B) (r : pyresult A) : pyresult B :=
  match r with
  | Ok a => Ok (f a)
  | Raise e => Raise e
  end.

(** A remote model-call operation for the table of the module: the
    pleural-effusion model answers with text that is not JSON, the
    cardiomegaly model with a score wrapped in an object, every other call
    fails. *)
Definition sample_reply (c : call) : pyresult pyval :=
  match dict_get "model" (kwargs c) with
  | Some (PStr "mc_chestradiography_pleural_effusion:v1.20250828") =>
      Ok (PStr "<html>busy</html>")
  | Some (PStr "mc_chestradiography_cardiomegaly:v1.20250828") =>
      Ok (PObj [("response", PDict [("score", PFloat (Finite (7 # 10)))])])
  | _ => Raise (mk_exn (OtherException "HOPPRError") "model unavailable")
  end.

(** *** Keyword matches *)

Definition string_lt (a b : string) : Prop := String.ltb a b = true.

(** [k] occurs in [text] as a whole word: an occurrence with no word
    character right before it and none right after it. *)
Definition word_occurs (k text : string) : Prop :=
  exists pre post,
    text = pre ++ k ++ post
    /\ word_at (last_char None pre) = false
    /\ word_at (first_char post) = false.

(** A keyword that begins and ends with a word character. *)
Definition word_ended (k : string) : bool :=
  word_at (first_char k) && word_at (last_char None k).

(** ** Further functions of the repository *)

(** [x >= y] and [x < y] on floats. *)
Definition fge (x y : pyfloat) : bool := fle y x.

Definition flt (x y : pyfloat) : bool := fgt y x.

(** The binary64 values of the literals [0.7], [0.4] and [0.30]. *)
Definition lit_0_7 : pyfloat := Finite (3152519739159347 # 4503599627370496).

Definition lit_0_4 : pyfloat := Finite (3602879701896397 # 9007199254740992).

Definition lit_0_30 : pyfloat := Finite (5404319552844595 # 18014398509481984).

(** *** Presentation helpers of [src/inference.py] *)

Definition patient_label_mapping : list (string * string) :=
  [("Pneumothorax", "Collapsed lung");
   ("Pleural Effusion", "Fluid around the lungs");
   ("Cardiomegaly", "Enlarged heart");
   ("Lung Nodule or Mass", "Lung spot (nodule/mass)");
   ("Consolidation", "Area of lung filled (consolidation)");
   ("Lung Opacity", "Hazy area in lung (opacity)");
   ("Infiltration", "Hazy area in lung (infiltration)");
   ("ILD", "Scarring pattern (interstitial)");
   ("Pulmonary Fibrosis", "Lung scarring (fibrosis)");
   ("Aortic Enlargement", "Enlarged aorta");
   ("Calcification", "Calcium deposits");
   ("Pleural Thickening", "Thickened lining of lung");
   ("Normal", "No clear abnormality")].

(** [mapping.get(name, name)]. *)
Definition patient_label (name : string) : string :=
  match dict_get name patient_label_mapping with
  | Some label => label
  | None => name
  end.

Definition patient_verdict (score : pyfloat) : string * string :=
  if fge score lit_0_7 then ("Needs prompt attention", "red")
  else if fge score lit_0_4 then ("Possibility present", "amber")
  else ("No strong signs", "green").

(** [bool(scores) and all(v < threshold for v in scores.values())]. *)
Definition is_likely_normal (scores : ScoreMap) (threshold : pyfloat) : bool :=
  match scores with [] => false | _ :: _ => true end
  && forallb (fun kv => flt (snd kv) threshold) scores.

(** *** [color_dot] of [app.py] *)

Definition color_dot (score : pyfloat) : string :=
  if fge score lit_0_7 then "🔴"
  else if fge score lit_0_4 then "🟡"
  else "🟢".

(** *** The narrative call with its payload *)

Section SessionPayload.
Variable World : Type.
Variable get_hoppr : pyresult (HOPPR World).

Local Open Scope io_scope.

Definition run_vlm_with_payload (study_id : string) : io World (pyval * pyval) :=
  hoppr <- io_lift get_hoppr ;;
  try (resp <- prompt_model hoppr (vlm_call study_id) ;;
       let payload := py_or (normalized resp) (PDict []) in
       findings <-
         (if isinstance_dict payload then
            top <- io_lift (has_field_of isinstance_str "findings" payload) ;;
            if top then io_lift (py_getitem payload "findings")
            else
              nested <- io_lift (has_field_of isinstance_dict "response" payload) ;;
              if nested then
                inner <- io_lift (py_getitem payload "response") ;;
                deep <- io_lift (has_field_of isinstance_str "findings" inner) ;;
                if deep then io_lift (py_getitem inner "findings")
                else io_ret (PStr EmptyString)
              else io_ret (PStr EmptyString)
          else io_ret (PStr EmptyString)) ;;
       io_ret (findings, if py_truthy payload then payload else note_payload))
  except Exception as e =>
    io_ret (PStr EmptyString, PDict [("error", PStr (exn_msg e))]).
End SessionPayload.

(** *** Configuration: [src/config.py] and [src/hoppr_client.py] *)

(** The process environment, after [load_dotenv()]. *)
Definition environ : Type := list (string * string).

Definition missing_api_key : exn :=
  mk_exn RuntimeError "Missing HOPPR_API_KEY (set it in .env).".

Definition get_api_key (env : environ) : pyresult string :=
  match dict_get "HOPPR_API_KEY" env with
  | Some key => if String.eqb key EmptyString then Raise missing_api_key else Ok key
  | None => Raise missing_api_key
  end.

(** [get_hoppr()]: the key, then the constructor [HOPPR(api_key)] of the
    client library, here [connect]. *)
Definition get_hoppr {World : Type} (connect : string -> pyresult (HOPPR World))
           (env : environ) : pyresult (HOPPR World) :=
  (api_key <- get_api_key env ;; connect api_key)%py.

(** *** Notions used in the further statements *)

(** The model identifiers that [run_classifiers] calls, in the order of
    the table. *)
Definition given_models (models : list (string * option string)) : list string :=
  flat_map (fun item => match given_model (snd item) with
                        | Some m => [m]
                        | None => []
                        end) models.

(** The names of the findings that have a model. *)
Definition called_findings (models : list (string * option string)) : list string :=
  map fst (filter (fun item => match given_model (snd item) with
                               | Some _ => true
                               | None => false
                               end) models).

(** The payload kept for a call, by its outcome. *)
Definition payload_record (r : pyresult pyval) : pyval :=
  match r with
  | Ok resp => if py_truthy (_to_dict resp) then _to_dict resp else note_payload
  | Raise e => PDict [("error", PStr (exn_msg e))]
  end.

(** The error that the extraction of the score raises on a payload, if
    any; [run_classifiers_with_payload] extracts from mappings only. *)
Definition extraction_error (payload : pyval) : option exn :=
  if isinstance_dict payload then
    match _extract_score payload with
    | Raise e => Some e
    | Ok _ => None
    end
  else None.

(** What [run_classifiers_with_payload] records for a call, by its
    outcome: the score is extracted inside the [try], so an error of the
    extraction leaves the error record in place of the payload. *)
Definition classifier_record (r : pyresult pyval) : pyval :=
  match r with
  | Ok resp =>
      match extraction_error (_to_dict resp) with
      | Some e => PDict [("error", PStr (exn_msg e))]
      | None => payload_record r
      end
  | Raise _ => payload_record r
  end.

(** The record of one finding, from the outcome of its own call. *)
Definition finding_record (reply : call -> pyresult pyval) (study_id : string)
           (model_id : option string) : option pyval :=
  match given_model model_id with
  | Some m => Some (classifier_record (reply (classifier_call study_id m)))
  | None => None
  end.

(** The sample replies, with a pneumothorax model that answers with a
    score beyond the range of a float. *)
Definition oversized_reply (c : call) : pyresult pyval :=
  match dict_get "model" (kwargs c) with
  | Some (PStr "mc_chestradiography_pneumothorax:v1.20250828") =>
      Ok (PDict [("score", PInt (10 ^ 400))])
  | _ => sample_reply c
  end.

(** A score map of probabilities. *)
Definition probability_scores (scores : ScoreMap) : Prop :=
  Forall (fun kv => fle (Finite 0) (snd kv) = true /\ fle (snd kv) (Finite 1) = true) scores.

(** A remote whose model calls all fail. *)
Definition models_down {World : Type} (hoppr : HOPPR World) : Prop :=
  forall c w, exists e w', prompt_model hoppr c w = (Raise e, w').

(** The severity of a tone. *)
Definition tone_rank (tone : string) : nat :=
  if String.eqb tone "red" then 2
  else if String.eqb tone "amber" then 1
  else 0.

(* ================================================================== *)
(** * Properties *)

(** ** The conversion of an [int] to a float *)

Local Open Scope Z_scope.

Lemma log2_small (a : Z) : 0 <= a -> Z.log2 a - 52 <= 0 -> a < 2 ^ 53.
Proof.
  intros A L. destruct (Z.eq_dec a 0) as [E|E]; [rewrite E; reflexivity|].
  apply Z.log2_lt_pow2; lia.
Qed.

Lemma log2_large (a : Z) : 0 <= a -> 0 < Z.log2 a - 52 -> 0 < a.
Proof.
  intros A L. destruct (Z.eq_dec a 0) as [E|E]; [|lia].
  rewrite E in L. discriminate L.
Qed.

Lemma abs_sgn_one (n : Z) : 0 < Z.abs n -> Z.abs (Z.sgn n) = 1.
Proof. destruct n; [discriminate | reflexivity | reflexivity]. Qed.

(** An [int] of at most 53 bits is its own rounding; so is [2 ^ 53]. *)
Lemma round_binary64_small (n : Z) : Z.abs n <= 2 ^ 53 -> round_binary64 n = n.
Proof.
  intros H. destruct (Z.eq_dec (Z.abs n) (2 ^ 53)) as [E|E].
  - destruct n as [|p|p]; try discriminate E; injection E as ->; reflexivity.
  - unfold round_binary64.
    assert (L : Z.log2 (Z.abs n) < 53).
    { destruct (Z.eq_dec (Z.abs n) 0) as [Z0|Z0]; [rewrite Z0; reflexivity|].
      apply Z.log2_lt_pow2; lia. }
    destruct (Z.leb_spec (Z.log2 (Z.abs n) - 52) 0); [reflexivity | lia].
Qed.

(** The magnitude of the rounding of an [int] of more than 53 bits. *)
Lemma round_binary64_abs (n : Z) :
  0 < Z.log2 (Z.abs n) - 52 ->
  exists q',
    Z.abs (round_binary64 n) = q' * 2 ^ (Z.log2 (Z.abs n) - 52)
    /\ q' = (let e := Z.log2 (Z.abs n) - 52 in
             let q := Z.abs n / 2 ^ e in
             let rem := Z.abs n mod 2 ^ e in
             if (2 ^ (e - 1) <? rem) || ((rem =? 2 ^ (e - 1)) && Z.odd q)
             then q + 1 else q).
Proof.
  intros H. eexists. split; [|reflexivity]. cbv zeta.
  unfold round_binary64.
  set (a := Z.abs n) in *. set (e := Z.log2 a - 52) in *.
  destruct (Z.leb_spec e 0) as [L|L]; [exfalso; lia|].
  set (q := a / 2 ^ e). set (rem := a mod 2 ^ e).
  set (q' := if (2 ^ (e - 1) <? rem) || ((rem =? 2 ^ (e - 1)) && Z.odd q)
             then q + 1 else q).
  assert (P : 0 < 2 ^ e) by (apply Z.pow_pos_nonneg; lia).
  assert (Q0 : 0 <= q) by (apply Z.div_pos; unfold a; lia).
  assert (Q1 : 0 <= q') by (unfold q'; destruct (_ || _); lia).
  rewrite Z.abs_mul. rewrite (Z.abs_eq (q' * 2 ^ e)) by nia.
  rewrite abs_sgn_one; [lia|].
  apply log2_large; [apply Z.abs_nonneg | exact H].
Qed.

(** The rounding reaches [2 ^ 1024] exactly from [2 ^ 1024 - 2 ^ 970] on,
    the midpoint between the largest binary64 and [2 ^ 1024]. *)
Lemma round_binary64_overflow (n : Z) :
  2 ^ 1024 <= Z.abs (round_binary64 n) <-> 2 ^ 1024 - 2 ^ 970 <= Z.abs n.
Proof.
  destruct (Z.leb_spec (Z.log2 (Z.abs n) - 52) 0) as [L|L].
  - unfold round_binary64. destruct (Z.leb_spec (Z.log2 (Z.abs n) - 52) 0); [|lia].
    assert (B : Z.abs n < 2 ^ 53) by (apply log2_small; lia).
    assert (2 ^ 53 < 2 ^ 1024 - 2 ^ 970) by reflexivity.
    assert (2 ^ 970 > 0) by reflexivity.
    lia.
  - destruct (round_binary64_abs n L) as (q' & -> & Q).
    cbv zeta in Q.
    assert (A : 0 < Z.abs n) by (apply log2_large; [apply Z.abs_nonneg | exact L]).
    set (a := Z.abs n) in *. set (l := Z.log2 a) in *. set (e := l - 52) in *.
    destruct (Z.log2_spec a A) as [Lo Hi]. fold l in Lo, Hi.
    assert (P : 0 < 2 ^ e) by (apply Z.pow_pos_nonneg; lia).
    assert (S : 2 ^ l = 2 ^ 52 * 2 ^ e).
    { rewrite <- Z.pow_add_r by lia. f_equal. lia. }
    assert (S' : 2 ^ Z.succ l = 2 ^ 53 * 2 ^ e).
    { rewrite <- Z.pow_add_r by lia. f_equal. lia. }
    assert (Hf : 2 ^ e = 2 * 2 ^ (e - 1)).
    { rewrite <- (Z.pow_succ_r 2 (e - 1)) by lia. f_equal. lia. }
    pose proof (Z.div_mod a (2 ^ e) ltac:(lia)) as DM.
    pose proof (Z.mod_pos_bound a (2 ^ e) P) as MB.
    set (q := a / 2 ^ e) in *. set (rem := a mod 2 ^ e) in *.
    set (h := 2 ^ (e - 1)) in *.
    assert (Qlo : 2 ^ 52 <= q) by nia.
    assert (Qhi : q < 2 ^ 53) by nia.
    change (2 ^ 53) with 9007199254740992 in *.
    assert (Q' : q <= q' <= q + 1) by (rewrite Q; destruct (_ || _); lia).
    destruct (Z.lt_trichotomy l 1023) as [C|[C|C]].
    + assert (M : 2 ^ Z.succ l <= 2 ^ 1023) by (apply Z.pow_le_mono_r; lia).
      assert (T : 2 ^ 1023 < 2 ^ 1024 - 2 ^ 970) by reflexivity.
      assert (T' : 0 < 2 ^ 970) by reflexivity.
      split; intros G; exfalso; nia.
    + assert (E : e = 971) by lia.
      assert (O : q = 9007199254740992 - 1 -> Z.odd q = true) by (intros ->; reflexivity).
      unfold h in *. clear S S' Lo Hi. rewrite E in *. clear E.
      replace (971 - 1) with 970 in * by reflexivity.
      set (c := 2 ^ 971) in *. set (c' := 2 ^ 970) in *.
      assert (T : 2 ^ 1024 = 9007199254740992 * c) by reflexivity.
      rewrite T. clearbody c c'.
      destruct (Z.ltb_spec c' rem) as [B1|B1]; cbn [orb andb] in Q.
      * subst q'. split; intros G; nia.
      * destruct (Z.eqb_spec rem c') as [B2|B2]; cbn [orb andb] in Q.
        -- destruct (Z.odd q) eqn:OD; subst q'.
           ++ split; intros G; nia.
           ++ assert (q <> 9007199254740992 - 1)
                by (intros K; specialize (O K); discriminate O).
              split; intros G; nia.
        -- subst q'. split; intros G; nia.
    + assert (M : 2 ^ 1024 <= 2 ^ l) by (apply Z.pow_le_mono_r; lia).
      assert (T' : 0 < 2 ^ 970) by reflexivity.
      split; intros G; nia.
Qed.

(** The rounding is a value of 53 significant bits within half a unit in
    the last place. *)
Lemma round_binary64_nearest (n : Z) :
  2 * Z.abs (round_binary64 n - n) <= 2 ^ (Z.log2 (Z.abs n) - 52)
  /\ exists m,
      round_binary64 n = m * 2 ^ Z.max 0 (Z.log2 (Z.abs n) - 52)
      /\ Z.abs m <= 2 ^ 53.
Proof.
  destruct (Z.leb_spec (Z.log2 (Z.abs n) - 52) 0) as [L|L].
  - assert (B : Z.abs n < 2 ^ 53) by (apply log2_small; lia).
    rewrite round_binary64_small by lia.
    rewrite Z.sub_diag, Z.max_l by exact L. split.
    + apply Z.pow_nonneg. lia.
    + exists n. split; [change (2 ^ 0) with 1; ring | lia].
  - rewrite Z.max_r by lia. unfold round_binary64.
    assert (A : 0 < Z.abs n) by (apply log2_large; [apply Z.abs_nonneg | exact L]).
    pose proof (abs_sgn_one n A) as SG.
    assert (N : n = Z.sgn n * Z.abs n) by (destruct n; reflexivity).
    set (a := Z.abs n) in *. set (l := Z.log2 a) in *. set (e := l - 52) in *.
    destruct (Z.leb_spec e 0) as [L'|_]; [exfalso; lia|].
    destruct (Z.log2_spec a A) as [Lo Hi]. fold l in Lo, Hi.
    assert (P : 0 < 2 ^ e) by (apply Z.pow_pos_nonneg; lia).
    assert (S' : 2 ^ Z.succ l = 2 ^ 53 * 2 ^ e).
    { rewrite <- Z.pow_add_r by lia. f_equal. lia. }
    assert (Hf : 2 ^ e = 2 * 2 ^ (e - 1)).
    { rewrite <- (Z.pow_succ_r 2 (e - 1)) by lia. f_equal. lia. }
    pose proof (Z.div_mod a (2 ^ e) ltac:(lia)) as DM.
    pose proof (Z.mod_pos_bound a (2 ^ e) P) as MB.
    set (q := a / 2 ^ e) in *. set (rem := a mod 2 ^ e) in *.
    set (h := 2 ^ (e - 1)) in *.
    assert (Qlo : 0 <= q) by nia.
    assert (Qhi : q < 2 ^ 53) by nia.
    set (q' := if (h <? rem) || ((rem =? h) && Z.odd q) then q + 1 else q).
    assert (D : 2 * Z.abs (q' * 2 ^ e - a) <= 2 ^ e /\ 0 <= q' <= 2 ^ 53).
    { clearbody h rem q.
      assert (U : (q + 1) * 2 ^ e - a = 2 ^ e - rem) by lia.
      assert (V : q * 2 ^ e - a = - rem) by lia.
      unfold q'. destruct (Z.ltb_spec h rem) as [B1|B1]; cbn [orb andb];
        [rewrite U; lia|].
      destruct (Z.eqb_spec rem h) as [B2|B2]; cbn [orb andb];
        [destruct (Z.odd q)|]; rewrite ?U, ?V; lia. }
    clearbody q'. destruct D as [D1 D2].
    split.
    + replace (Z.sgn n * (q' * 2 ^ e) - n) with (Z.sgn n * (q' * 2 ^ e - a))
        by (rewrite N at 3; ring).
      rewrite Z.abs_mul, SG. lia.
    + exists (Z.sgn n * q'). split; [ring|].
      rewrite Z.abs_mul, SG. lia.
Qed.

Local Close Scope Z_scope.

#[local] Arguments float_of_int : simpl never.

Lemma float_of_int_exact (n : Z) :
  (Z.abs n <= 2 ^ 53)%Z -> float_of_int n = Ok (Finite (inject_Z n)).
Proof.
  intros H. unfold float_of_int. rewrite (round_binary64_small n H).
  destruct (Z.leb_spec (2 ^ 1024) (Z.abs n)) as [B|B]; [|reflexivity].
  exfalso. assert (2 ^ 53 < 2 ^ 1024)%Z by reflexivity. lia.
Qed.

Lemma float_of_int_raises (n : Z) :
  float_of_int n = Raise overflow_error <-> (2 ^ 1024 - 2 ^ 970 <= Z.abs n)%Z.
Proof.
  unfold float_of_int. rewrite <- round_binary64_overflow.
  destruct (Z.leb_spec (2 ^ 1024) (Z.abs (round_binary64 n))) as [B|B].
  - split; intros _; [exact B | reflexivity].
  - split; [discriminate | lia].
Qed.

Lemma float_of_int_rounds (n : Z) :
  (Z.abs n < 2 ^ 1024 - 2 ^ 970)%Z ->
  float_of_int n = Ok (Finite (inject_Z (round_binary64 n))).
Proof.
  intros H. unfold float_of_int.
  destruct (Z.leb_spec (2 ^ 1024) (Z.abs (round_binary64 n))) as [B|B]; [|reflexivity].
  apply round_binary64_overflow in B. lia.
Qed.

(** The conversion of a number returns, or raises [OverflowError]. *)
Lemma py_float_number (v : pyval) :
  isinstance_int_float v = true ->
  (exists f, py_float v = Ok f) \/ py_float v = Raise overflow_error.
Proof.
  destruct v; try discriminate; intros _; cbn [py_float]; try (left; eexists; reflexivity).
  unfold float_of_int. destruct (_ <=? _)%Z; [right | left; eexists]; reflexivity.
Qed.

(** ** Score extraction *)

Lemma number_value_isinstance (v : pyval) :
  isinstance_int_float v = match number_value v with Some _ => true | None => false end.
Proof. destruct v; reflexivity. Qed.

(** The test [key in d and isinstance(d[key], T)] on a mapping never raises. *)
Lemma has_field_of_dict (T : pyval -> bool) (key : string) (d : list (string * pyval)) :
  has_field_of T key (PDict d)
  = Ok (match dict_get key d with Some v => T v | None => false end).
Proof.
  unfold has_field_of, py_contains, py_getitem, dict_mem; simpl.
  destruct (dict_get key d); reflexivity.
Qed.

Lemma has_score_numeric (d : list (string * pyval)) :
  has_field_of isinstance_int_float "score" (PDict d)
  = Ok (match numeric_score d with Some _ => true | None => false end).
Proof.
  rewrite has_field_of_dict. unfold numeric_score.
  destruct (dict_get "score" d) as [v|]; [apply f_equal, number_value_isinstance | reflexivity].
Qed.

Lemma numeric_score_none (d : list (string * pyval)) :
  numeric_score d = None <->
  match dict_get "score" d with
  | Some v => isinstance_int_float v = false
  | None => True
  end.
Proof.
  unfold numeric_score. destruct (dict_get "score" d) as [v|]; [|tauto].
  rewrite number_value_isinstance. destruct (number_value v); split; congruence.
Qed.

(** A numeric "score" field of the mapping is converted and returned. *)
Lemma extract_score_top (d : list (string * pyval)) (v : pyval) :
  dict_get "score" d = Some v -> isinstance_int_float v = true ->
  _extract_score (PDict d) = map_result Some (py_float v).
Proof.
  intros H I. unfold _extract_score. rewrite has_field_of_dict, H, I.
  cbn [py_bind py_getitem]. rewrite H. cbn [py_bind].
  destruct (py_float v); reflexivity.
Qed.

Lemma extract_score_below (d : list (string * pyval)) :
  numeric_score d = None ->
  _extract_score (PDict d)
  = match dict_get "response" d with
    | Some (PDict inner) =>
        match dict_get "score" inner with
        | Some v => if isinstance_int_float v then map_result Some (py_float v) else Ok None
        | None => Ok None
        end
    | _ => Ok None
    end.
Proof.
  intros H. unfold _extract_score. rewrite has_score_numeric, H. cbn [py_bind].
  rewrite has_field_of_dict.
  destruct (dict_get "response" d) as [v|] eqn:E; [|reflexivity].
  destruct v; cbn [py_bind isinstance_dict py_getitem]; try reflexivity.
  rewrite E. cbn [py_bind]. rewrite has_field_of_dict.
  destruct (dict_get "score" d0) as [v|] eqn:F; [|reflexivity].
  destruct (isinstance_int_float v); [|reflexivity].
  cbn [py_bind py_getitem]. rewrite F. cbn [py_bind].
  destruct (py_float v); reflexivity.
Qed.

(** On a mapping the extraction returns, or raises [OverflowError]. *)
Lemma extract_score_dict (d : list (string * pyval)) :
  (exists s, _extract_score (PDict d) = Ok s)
  \/ _extract_score (PDict d) = Raise overflow_error.
Proof.
  assert (G : forall v, isinstance_int_float v = true ->
                (exists s, map_result Some (py_float v) = Ok s)
                \/ map_result Some (py_float v) = Raise overflow_error).
  { intros v I. destruct (py_float_number v I) as [[f ->] | ->];
      [left; eexists | right]; reflexivity. }
  destruct (numeric_score d) as [f|] eqn:H.
  - unfold numeric_score in H. destruct (dict_get "score" d) as [v|] eqn:E; [|discriminate].
    assert (I : isinstance_int_float v = true)
      by (rewrite number_value_isinstance, H; reflexivity).
    rewrite (extract_score_top d E I). apply G, I.
  - rewrite (extract_score_below d H).
    destruct (dict_get "response" d) as [v|]; [|left; eexists; reflexivity].
    destruct v; try (left; eexists; reflexivity).
    destruct (dict_get "score" d0) as [v|]; [|left; eexists; reflexivity].
    destruct (isinstance_int_float v) eqn:I; [apply G, I | left; eexists; reflexivity].
Qed.

Lemma extract_score_none (d : list (string * pyval)) :
  numeric_score d = None ->
  (forall inner, dict_get "response" d = Some (PDict inner) -> numeric_score inner = None) ->
  _extract_score (PDict d) = Ok None.
Proof.
  intros H N. rewrite (extract_score_below d H).
  destruct (dict_get "response" d) as [v|]; [|reflexivity].
  destruct v; try reflexivity.
  pose proof (proj1 (numeric_score_none d0) (N _ eq_refl)) as S.
  destruct (dict_get "score" d0) as [v|]; [rewrite S|]; reflexivity.
Qed.

(** The extraction raises on a mapping only by the conversion of the
    [int] that it selects. *)
Lemma extract_score_raises (d : list (string * pyval)) (e : exn) :
  _extract_score (PDict d) = Raise e ->
  e = overflow_error
  /\ exists n,
      (2 ^ 1024 - 2 ^ 970 <= Z.abs n)%Z
      /\ (dict_get "score" d = Some (PInt n)
          \/ numeric_score d = None
             /\ exists inner, dict_get "response" d = Some (PDict inner)
                              /\ dict_get "score" inner = Some (PInt n)).
Proof.
  assert (G : forall v, isinstance_int_float v = true ->
                map_result Some (py_float v) = Raise e ->
                e = overflow_error
                /\ exists n, (2 ^ 1024 - 2 ^ 970 <= Z.abs n)%Z /\ v = PInt n).
  { intros v I R. destruct v; try discriminate I; try discriminate R.
    cbn [py_float] in R. destruct (float_of_int z) as [f|e'] eqn:F; [discriminate R|].
    cbn [map_result] in R. injection R as <-.
    unfold float_of_int in F. destruct (_ <=? _)%Z eqn:B; [|discriminate F].
    injection F as <-. split; [reflexivity|]. exists z. split; [|reflexivity].
    apply float_of_int_raises. unfold float_of_int. rewrite B. reflexivity. }
  destruct (numeric_score d) as [f|] eqn:H.
  - unfold numeric_score in H. destruct (dict_get "score" d) as [v|] eqn:E; [|discriminate].
    assert (I : isinstance_int_float v = true)
      by (rewrite number_value_isinstance, H; reflexivity).
    rewrite (extract_score_top d E I). intros R.
    destruct (G v I R) as (-> & n & B & ->).
    split; [reflexivity|]. exists n. split; [exact B|]. left. reflexivity.
  - rewrite (extract_score_below d H).
    destruct (dict_get "response" d) as [v|]; [|discriminate].
    destruct v; try discriminate.
    destruct (dict_get "score" d0) as [v|] eqn:E; [|discriminate].
    destruct (isinstance_int_float v) eqn:I; [|discriminate].
    intros R. destruct (G v I R) as (-> & n & B & ->).
    split; [reflexivity|]. exists n. split; [exact B|]. right.
    split; [reflexivity|]. exists d0. split; [reflexivity | exact E].
Qed.

(** C4.  For a payload that is a mapping: a numeric top-level "score" is
    converted by [float] and the result returned; failing that, so is a
    numeric "score" of a nested "response" mapping; failing both, the
    result is absence.  The conversion returns a float as it is, a boolean
    as 1.0 or 0.0, an [int] of magnitude up to [2 ^ 53] exactly, and a
    larger one rounded to a nearest value of 53 significant bits; it raises
    [OverflowError] exactly on an [int] of magnitude [2 ^ 1024 - 2 ^ 970]
    or more, and the extraction then raises it too. *)
Theorem extract_score_resolution (d : list (string * pyval)) :
  (forall v,
     dict_get "score" d = Some v -> isinstance_int_float v = true ->
     _extract_score (PDict d) = map_result Some (py_float v))
  /\ (forall inner v,
        numeric_score d = None ->
        dict_get "response" d = Some (PDict inner) ->
        dict_get "score" inner = Some v -> isinstance_int_float v = true ->
        _extract_score (PDict d) = map_result Some (py_float v))
  /\ (numeric_score d = None ->
      (forall inner, dict_get "response" d = Some (PDict inner) -> numeric_score inner = None) ->
      _extract_score (PDict d) = Ok None)
  /\ (forall f, py_float (PFloat f) = Ok f)
  /\ (forall b, py_float (PBool b) = Ok (Finite (if b then 1%Q else 0%Q)))
  /\ (forall n, (Z.abs n <= 2 ^ 53)%Z -> py_float (PInt n) = Ok (Finite (inject_Z n)))
  /\ (forall n,
        (Z.abs n < 2 ^ 1024 - 2 ^ 970)%Z ->
        exists r,
          py_float (PInt n) = Ok (Finite (inject_Z r))
          /\ (2 * Z.abs (r - n) <= 2 ^ (Z.log2 (Z.abs n) - 52))%Z
          /\ exists m, (r = m * 2 ^ Z.max 0 (Z.log2 (Z.abs n) - 52))%Z
                       /\ (Z.abs m <= 2 ^ 53)%Z)
  /\ (forall n,
        py_float (PInt n) = Raise overflow_error <-> (2 ^ 1024 - 2 ^ 970 <= Z.abs n)%Z).
Proof.
  split; [|split; [|split; [|split; [|split; [|split; [|split]]]]]].
  - intros v. apply extract_score_top.
  - intros inner v H R S I. rewrite (extract_score_below d H), R, S, I. reflexivity.
  - apply extract_score_none.
  - reflexivity.
  - reflexivity.
  - intros n. apply float_of_int_exact.
  - intros n B. exists (round_binary64 n). split; [apply float_of_int_rounds, B|].
    apply round_binary64_nearest.
  - intros n. apply float_of_int_raises.
Qed.

(** The three cases on sample payloads, and the conversion of [2 ^ 53],
    of [2 ^ 53 + 1] and of [10 ^ 400]. *)
Lemma extract_score_resolution_witness :
  _extract_score (PDict [("score", PFloat (Finite (812 # 1000)))])
  = Ok (Some (Finite (812 # 1000)))
  /\ _extract_score (PDict [("score", PStr "high");
                            ("response", PDict [("score", PInt 1)])])
     = Ok (Some (Finite 1))
  /\ _extract_score (PDict [("findings", PStr "clear")]) = Ok None
  /\ py_float (PInt (2 ^ 53)) = Ok (Finite (inject_Z (2 ^ 53)))
  /\ (exists r, py_float (PInt (2 ^ 53 + 1)) = Ok (Finite (inject_Z r))
                /\ (2 * Z.abs (r - (2 ^ 53 + 1)) <= 2)%Z)
  /\ py_float (PInt (10 ^ 400)) = Raise overflow_error.
Proof.
  split; [|split; [|split; [|split; [|split]]]].
  - exact (proj1 (extract_score_resolution [("score", PFloat (Finite (812 # 1000)))])
             (PFloat (Finite (812 # 1000))) eq_refl eq_refl).
  - exact (proj1 (proj2 (extract_score_resolution
                           [("score", PStr "high");
                            ("response", PDict [("score", PInt 1)])]))
             [("score", PInt 1)] (PInt 1) eq_refl eq_refl eq_refl eq_refl).
  - apply (proj2 (proj2 (extract_score_resolution [("findings", PStr "clear")])));
      [reflexivity|].
    intros inner H. discriminate H.
  - apply (extract_score_resolution []). vm_compute. discriminate.
  - destruct (proj1 (proj2 (proj2 (proj2 (proj2 (proj2 (proj2
               (extract_score_resolution []))))))) (2 ^ 53 + 1)%Z)
      as (r & R & B & _); [reflexivity|].
    exists r. split; [exact R | exact B].
  - apply (extract_score_resolution []). vm_compute. discriminate.
Defined.

(** A top-level "score" that is an [int] beyond the range of binary64 is a
    numeric value, and the extraction raises instead of returning it. *)
Lemma extract_score_int_too_large :
  isinstance_int_float (PInt (10 ^ 400)) = true
  /\ numeric_score [("score", PInt (10 ^ 400))] = Some (Finite (inject_Z (10 ^ 400)))
  /\ _extract_score (PDict [("score", PInt (10 ^ 400))]) = Raise overflow_error
  /\ ~ exists f, _extract_score (PDict [("score", PInt (10 ^ 400))]) = Ok (Some f).
Proof.
  assert (R : _extract_score (PDict [("score", PInt (10 ^ 400))]) = Raise overflow_error)
    by (vm_compute; reflexivity).
  split; [reflexivity|]. split; [reflexivity|]. split; [exact R|].
  intros [f H]. rewrite R in H. discriminate H.
Qed.

(** C10.  A boolean "score" is taken as a number: [True] gives 1.0 and
    [False] gives 0.0, at the top level and, when the top level has no
    numeric "score", in the nested "response" mapping. *)
Theorem extract_score_bool (d : list (string * pyval)) (b : bool) :
  (dict_get "score" d = Some (PBool b) ->
   _extract_score (PDict d) = Ok (Some (Finite (if b then 1%Q else 0%Q))))
  /\ (forall inner,
        numeric_score d = None ->
        dict_get "response" d = Some (PDict inner) ->
        dict_get "score" inner = Some (PBool b) ->
        _extract_score (PDict d) = Ok (Some (Finite (if b then 1%Q else 0%Q)))).
Proof.
  split.
  - intros H. rewrite (extract_score_top d H eq_refl). reflexivity.
  - intros inner H R S. rewrite (extract_score_below d H), R, S. reflexivity.
Qed.

(** A boolean score at the top level and in the nested mapping. *)
Lemma extract_score_bool_witness :
  _extract_score (PDict [("score", PBool true)]) = Ok (Some (Finite 1))
  /\ _extract_score (PDict [("response", PDict [("score", PBool false)])])
     = Ok (Some (Finite 0)).
Proof.
  split.
  - apply (proj1 (extract_score_bool [("score", PBool true)] true)). reflexivity.
  - apply (proj2 (extract_score_bool [("response", PDict [("score", PBool false)])] false)
             [("score", PBool false)]); reflexivity.
Defined.

(** ** The decoder's fuel *)

Ltac break_in H :=
  repeat (match type of H with
          | context [match ?x with _ => _ end] => destruct x eqn:?
          end; try discriminate H).

Lemma skip_ws_length (s : string) : (String.length (skip_ws s) <= String.length s)%nat.
Proof.
  induction s as [|c r IH]; simpl; [lia|].
  destruct (is_ws c); simpl; lia.
Qed.

Lemma scanstring_shorter (n : nat) :
  forall s, (String.length s <= n)%nat ->
  forall pending body rest,
    scanstring pending s = Some (body, rest) ->
    (String.length rest < String.length s)%nat.
Proof.
  induction n as [|n IH]; intros s Hn pending body rest H.
  - destruct s; [discriminate H | simpl in Hn; lia].
  - destruct s as [|c r]; [discriminate H|].
    cbn [scanstring] in H. break_in H;
      injection H as <- <-; subst; simpl in *;
      repeat match goal with
             | E : scanstring _ ?r = Some (_, ?x) |- _ =>
                 apply IH in E; [|simpl in *; lia]
             end; simpl in *; lia.
Qed.

Lemma scanstring_rest (s : string) pending body rest :
  scanstring pending s = Some (body, rest) ->
  (String.length rest < String.length s)%nat.
Proof. apply (@scanstring_shorter (String.length s)). apply le_n. Qed.

Lemma span_digits_length (s : string) :
  forall ds rest, span_digits s = (ds, rest) ->
    (String.length rest <= String.length s)%nat
    /\ (ds <> [] -> (String.length rest < String.length s)%nat).
Proof.
  induction s as [|c r IH]; intros ds rest H; simpl in H.
  - injection H as <- <-. split; [lia | congruence].
  - destruct (digit_value c).
    + destruct (span_digits r) as [ds' rest'] eqn:E. injection H as <- <-.
      destruct (IH _ _ eq_refl) as [L _]. simpl. split; lia.
    + injection H as <- <-. split; [lia | congruence].
Qed.

Lemma match_integer_shorter (s : string) negative ds rest :
  match_integer s = Some (negative, ds, rest) ->
  (String.length rest < String.length s)%nat.
Proof.
  unfold match_integer. intros H.
  destruct s as [|c r]; [discriminate H|].
  destruct (Ascii.eqb c "-"%char).
  - destruct r as [|c' r']; [discriminate H|].
    destruct (Ascii.eqb c' "0"%char); [injection H as <- <- <-; simpl; lia|].
    destruct (span_digits (String c' r')) as [ds' rest'] eqn:E.
    destruct ds' as [|d ds']; [discriminate H|]. injection H as <- <- <-.
    apply span_digits_length in E. destruct E as [_ E].
    assert (d :: ds' <> []) by discriminate. specialize (E H). simpl in *. lia.
  - destruct (Ascii.eqb c "0"%char); [injection H as <- <- <-; simpl; lia|].
    destruct (span_digits (String c r)) as [ds' rest'] eqn:E.
    destruct ds' as [|d ds']; [discriminate H|]. injection H as <- <- <-.
    apply span_digits_length in E. destruct E as [_ E].
    assert (d :: ds' <> []) by discriminate. specialize (E H). simpl in *. lia.
Qed.

Lemma match_frac_length (s : string) frac rest :
  match_frac s = (frac, rest) -> (String.length rest <= String.length s)%nat.
Proof.
  unfold match_frac. intros H.
  destruct s as [|c r]; [injection H as <- <-; lia|].
  destruct (Ascii.eqb c "."%char); [|injection H as <- <-; lia].
  destruct (span_digits r) as [ds rest'] eqn:E.
  apply span_digits_length in E. destruct E as [E _].
  destruct ds; injection H as <- <-; simpl; lia.
Qed.

Lemma match_exp_length (s : string) e rest :
  match_exp s = (e, rest) -> (String.length rest <= String.length s)%nat.
Proof.
  unfold match_exp. intros H.
  destruct s as [|c r]; [injection H as <- <-; lia|].
  destruct (Ascii.eqb c "e"%char || Ascii.eqb c "E"%char); [|injection H as <- <-; lia].
  destruct r as [|g r'].
  - simpl in H. injection H as <- <-. lia.
  - destruct (Ascii.eqb g "-"%char).
    + destruct (span_digits r') as [ds rest'] eqn:E.
      apply span_digits_length in E. destruct E as [E _].
      destruct ds; injection H as <- <-; simpl; lia.
    + destruct (Ascii.eqb g "+"%char).
      * destruct (span_digits r') as [ds rest'] eqn:E.
        apply span_digits_length in E. destruct E as [E _].
        destruct ds; injection H as <- <-; simpl; lia.
      * destruct (span_digits (String g r')) as [ds rest'] eqn:E.
        apply span_digits_length in E. destruct E as [E _].
        destruct ds; injection H as <- <-; simpl in *; lia.
Qed.

Lemma match_number_shorter (s : string) v rest :
  match_number s = Some (v, rest) -> (String.length rest < String.length s)%nat.
Proof.
  unfold match_number. intros H.
  destruct (match_integer s) as [[[negative ds] r0]|] eqn:I; [|discriminate H].
  apply match_integer_shorter in I.
  destruct (match_frac r0) as [frac r1] eqn:F. apply match_frac_length in F.
  destruct (match_exp r1) as [e r2] eqn:X. apply match_exp_length in X.
  destruct frac, e; injection H as <- <-; lia.
Qed.

Lemma strip_prefix_length (lit s rest : string) :
  strip_prefix lit s = Some rest ->
  String.length s = (String.length lit + String.length rest)%nat.
Proof.
  revert s. induction lit as [|a lit IH]; intros s H; simpl in H.
  - injection H as <-. reflexivity.
  - destruct s as [|b s']; [discriminate H|].
    destruct (Ascii.eqb a b); [|discriminate H].
    simpl. rewrite (IH _ H). reflexivity.
Qed.

Lemma scan_atom_shorter (s : string) v rest :
  scan_atom s = Some (v, rest) -> (String.length rest < String.length s)%nat.
Proof.
  unfold scan_atom, scan_constant. intros H.
  repeat match type of H with
         | context [match strip_prefix ?l s with _ => _ end] =>
             let E := fresh "E" in
             destruct (strip_prefix l s) eqn:E;
             [apply strip_prefix_length in E; injection H as <- <-; simpl in E; lia|]
         | context [match match_number s with _ => _ end] =>
             let E := fresh "E" in
             destruct (match_number s) as [[? ?]|] eqn:E;
             [apply match_number_shorter in E; injection H as <- <-; lia|]
         end.
  discriminate H.
Qed.

Ltac length_facts IH :=
  repeat match goal with
         | E : skip_ws ?x = String _ _ |- _ =>
             let L := fresh "L" in
             pose proof (skip_ws_length x) as L; rewrite E in L; simpl in L;
             generalize dependent E; intros _
         | E : scanstring _ ?x = Some (_, _) |- _ =>
             apply scanstring_rest in E
         | E : scan_atom _ = Some (_, _) |- _ => apply scan_atom_shorter in E
         | E : scan_once _ _ = Some (_, _) |- _ => apply (proj1 IH) in E
         | E : JSONObject _ _ _ = Some (_, _) |- _ => apply (proj1 (proj2 IH)) in E
         | E : JSONArray _ _ _ = Some (_, _) |- _ => apply (proj2 (proj2 IH)) in E
         end.

Lemma decoder_progress (fuel : nat) :
  (forall s v rest, scan_once fuel s = Some (v, rest) ->
                    (String.length rest < String.length s)%nat)
  /\ (forall s pairs v rest, JSONObject fuel s pairs = Some (v, rest) ->
                             (String.length rest < String.length s)%nat)
  /\ (forall s values v rest, JSONArray fuel s values = Some (v, rest) ->
                              (String.length rest < String.length s)%nat).
Proof.
  induction fuel as [|n IH]; [repeat split; intros; discriminate|].
  split; [|split].
  - intros s v rest H. cbn [scan_once] in H. break_in H;
      try (injection H as <- <-); length_facts IH;
      try (pose proof (skip_ws_length s0)); simpl in *; try lia.
  - intros s pairs v rest H. cbn [JSONObject] in H. break_in H;
      try (injection H as <- <-); length_facts IH;
      repeat match goal with
             | E : (String.length _ < String.length (skip_ws ?x))%nat |- _ =>
                 pose proof (skip_ws_length x); revert E
             end; intros; simpl in *; try lia.
  - intros s values v rest H. cbn [JSONArray] in H. break_in H;
      try (injection H as <- <-); length_facts IH;
      repeat match goal with
             | E : (String.length _ < String.length (skip_ws ?x))%nat |- _ =>
                 pose proof (skip_ws_length x); revert E
             end; intros; simpl in *; try lia.
Qed.

Lemma decoder_fuel_step (fuel : nat) :
  (forall s, (2 * String.length s + 2 <= fuel)%nat ->
             scan_once (S fuel) s = scan_once fuel s)
  /\ (forall s pairs, (2 * String.length s + 1 <= fuel)%nat ->
                      JSONObject (S fuel) s pairs = JSONObject fuel s pairs)
  /\ (forall s values, (2 * String.length s + 3 <= fuel)%nat ->
                       JSONArray (S fuel) s values = JSONArray fuel s values).
Proof.
  induction fuel as [|n IH]; [repeat split; intros; lia|].
  destruct IH as (IHs & IHo & IHa).
  pose proof (decoder_progress n) as P.
  split; [|split].
  - intros s B.
    assert (G : forall m, m = S n -> scan_once (S m) s = scan_once (S n) s);
      [|exact (G _ eq_refl)].
    intros m ->. cbn [scan_once].
    destruct s as [|c r]; [reflexivity|].
    repeat match goal with
           | |- context [if ?b then _ else _] => destruct b
           end; try reflexivity.
    + destruct (skip_ws r) as [|c1 r1] eqn:E; [reflexivity|].
      pose proof (skip_ws_length r) as L. rewrite E in L.
      cbn [String.length] in B, L.
      repeat match goal with
             | |- context [if ?b then _ else _] => destruct b
             end; try reflexivity.
      apply IHo. lia.
    + destruct (skip_ws r) as [|c1 r1] eqn:E; [reflexivity|].
      pose proof (skip_ws_length r) as L. rewrite E in L.
      cbn [String.length] in B, L.
      repeat match goal with
             | |- context [if ?b then _ else _] => destruct b
             end; try reflexivity.
      apply IHa. cbn [String.length]. lia.
  - intros s pairs B.
    assert (G : forall m, m = S n ->
                JSONObject (S m) s pairs = JSONObject (S n) s pairs);
      [|exact (G _ eq_refl)].
    intros m ->. cbn [JSONObject].
    destruct (scanstring None s) as [[key rest]|] eqn:K; [|reflexivity].
    apply scanstring_rest in K.
    destruct (skip_ws rest) as [|c r] eqn:E; [reflexivity|].
    pose proof (skip_ws_length rest) as L. rewrite E in L. simpl in L.
    destruct (Ascii.eqb c ":"%char); [|reflexivity].
    pose proof (skip_ws_length r) as L1.
    rewrite IHs by lia.
    destruct (scan_once n (skip_ws r)) as [[value rest1]|] eqn:V; [|reflexivity].
    apply (proj1 P) in V.
    destruct (skip_ws rest1) as [|c1 r1] eqn:E1; [reflexivity|].
    pose proof (skip_ws_length rest1) as L2. rewrite E1 in L2. simpl in L2.
    destruct (Ascii.eqb c1 "}"%char); [reflexivity|].
    destruct (Ascii.eqb c1 ","%char); [|reflexivity].
    destruct (skip_ws r1) as [|c2 r2] eqn:E2; [reflexivity|].
    pose proof (skip_ws_length r1) as L3. rewrite E2 in L3. simpl in L3.
    destruct (Ascii.eqb c2 quote); [|reflexivity].
    apply IHo. lia.
  - intros s values B.
    assert (G : forall m, m = S n ->
                JSONArray (S m) s values = JSONArray (S n) s values);
      [|exact (G _ eq_refl)].
    intros m ->. cbn [JSONArray].
    rewrite IHs by lia.
    destruct (scan_once n s) as [[value rest]|] eqn:V; [|reflexivity].
    apply (proj1 P) in V.
    destruct (skip_ws rest) as [|c r] eqn:E; [reflexivity|].
    pose proof (skip_ws_length rest) as L. rewrite E in L. simpl in L.
    destruct (Ascii.eqb c "]"%char); [reflexivity|].
    destruct (Ascii.eqb c ","%char); [|reflexivity].
    pose proof (skip_ws_length r) as L1.
    apply IHa. lia.
Qed.

(** The fuel that [json_loads] gives is enough: more fuel changes nothing. *)
Lemma decoder_fuel_enough (s : string) (extra : nat) :
  scan_once (2 * String.length s + 2 + extra) (skip_ws s)
  = scan_once (2 * String.length s + 2) (skip_ws s).
Proof.
  induction extra as [|k IH]; [f_equal; lia|].
  replace (2 * String.length s + 2 + S k)%nat with (S (2 * String.length s + 2 + k)) by lia.
  rewrite (proj1 (decoder_fuel_step _)); [exact IH|].
  pose proof (skip_ws_length s). lia.
Qed.

(** ** Response normalisation *)

Lemma to_dict_object (attrs : list (string * pyval)) :
  _to_dict (PObj attrs)
  = match dict_get "response" attrs with
    | Some x => _to_dict x
    | None => PNone
    end.
Proof.
  simpl. induction attrs as [|[k x] r IH]; simpl; [reflexivity|].
  destruct (String.eqb k "response"); [reflexivity | exact IH].
Qed.

(** The resolution order: a "response" attribute first, then a mapping as
    it is, then the decoding of text, then absence. *)
Lemma to_dict_resolution (v : pyval) :
  _to_dict v
  = if py_hasattr v "response" then _to_dict (py_getattr v "response" PNone)
    else if isinstance_dict v then v
    else match v with
         | PStr s => match json_loads s with Some x => x | None => PNone end
         | _ => PNone
         end.
Proof.
  destruct v; try reflexivity.
  rewrite to_dict_object. unfold py_hasattr, py_getattr, dict_mem.
  destruct (dict_get "response" attrs); reflexivity.
Qed.

(** A result that is a mapping or absence is left as it is by a second
    normalisation. *)
Lemma to_dict_stable (v : pyval) :
  isinstance_dict (_to_dict v) = true \/ _to_dict v = PNone ->
  _to_dict (_to_dict v) = _to_dict v.
Proof.
  intros [H|H].
  - destruct (_to_dict v); try discriminate H. reflexivity.
  - rewrite H. reflexivity.
Qed.

(** C3.  On the JSON text of an array the normaliser returns the decoded
    list: a value that is neither a mapping nor the absence signal. *)
Theorem to_dict_array_text :
  _to_dict (PStr "[1]") = PList [PInt 1]
  /\ isinstance_dict (_to_dict (PStr "[1]")) = false
  /\ _to_dict (PStr "[1]") <> PNone.
Proof.
  assert (E : _to_dict (PStr "[1]") = PList [PInt 1]) by (vm_compute; reflexivity).
  rewrite E. repeat split. discriminate.
Qed.

(** C7.  On the JSON text of a string that is itself JSON text the
    normaliser is not idempotent: the first pass returns the inner text,
    the second decodes it. *)
Theorem to_dict_twice_differs :
  _to_dict (PStr (quoted "{}")) = PStr "{}"
  /\ _to_dict (_to_dict (PStr (quoted "{}"))) = PDict []
  /\ _to_dict (_to_dict (PStr (quoted "{}"))) <> _to_dict (PStr (quoted "{}")).
Proof.
  assert (E : _to_dict (PStr (quoted "{}")) = PStr "{}") by (vm_compute; reflexivity).
  rewrite E.
  assert (F : _to_dict (PStr "{}") = PDict []) by (vm_compute; reflexivity).
  rewrite F. repeat split. discriminate.
Qed.

(** ** The order of floats *)

#[local] Arguments Qred : simpl never.
#[local] Arguments Qmult : simpl never.

Lemma fle_refl (x : pyfloat) : not_nan x -> fle x x = true.
Proof.
  destruct x; simpl; intros H; try reflexivity.
  - apply Qle_bool_iff, Qle_refl.
  - exfalso. apply H. reflexivity.
Qed.

Lemma fle_trans (x y z : pyfloat) :
  fle x y = true -> fle y z = true -> fle x z = true.
Proof.
  destruct x, y, z; simpl; try congruence.
  rewrite !Qle_bool_iff. apply Qle_trans.
Qed.

(** [x == y] is [x <= y and y <= x]. *)
Lemma feq_fle (x y : pyfloat) : feq x y = fle x y && fle y x.
Proof.
  destruct x, y; simpl; try reflexivity.
  destruct (Qeq_bool q q0) eqn:E.
  - apply Qeq_bool_iff in E. symmetry. apply andb_true_iff.
    split; apply Qle_bool_iff; rewrite E; apply Qle_refl.
  - symmetry. apply andb_false_iff.
    destruct (Qle_bool q q0) eqn:A; [right | left; reflexivity].
    destruct (Qle_bool q0 q) eqn:B; [|reflexivity].
    apply Qle_bool_iff in A, B.
    assert (Qeq_bool q q0 = true) by (apply Qeq_bool_iff, Qle_antisym; assumption).
    congruence.
Qed.

(** [x > y] holds exactly when [y <= x] does and [x <= y] does not. *)
Lemma fgt_fle (x y : pyfloat) : fgt x y = fle y x && negb (fle x y).
Proof.
  destruct x, y; simpl; try reflexivity.
  destruct (Qle_bool q q0) eqn:A; simpl.
  - rewrite andb_false_r. reflexivity.
  - rewrite andb_true_r. symmetry. apply Qle_bool_iff.
    destruct (Qlt_le_dec q0 q) as [L|L].
    + apply Qlt_le_weak, L.
    + apply Qle_bool_iff in L. congruence.
Qed.

Lemma fle_total (x y : pyfloat) :
  not_nan x -> not_nan y -> fle x y = true \/ fle y x = true.
Proof.
  destruct x, y; simpl; unfold not_nan; intros Hx Hy; try congruence; auto.
  rewrite !Qle_bool_iff.
  destruct (Qlt_le_dec q0 q) as [L|L]; [right; apply Qlt_le_weak, L | left; exact L].
Qed.

Lemma not_fgt_fle (x y : pyfloat) :
  not_nan x -> not_nan y -> fgt x y = false -> fle x y = true.
Proof.
  intros Hx Hy H. rewrite fgt_fle in H.
  destruct (fle x y) eqn:A; [reflexivity|].
  destruct (fle_total Hx Hy) as [B|B]; [congruence|].
  rewrite B in H. discriminate H.
Qed.

(** *** The weights *)

Lemma weight_is_weight (k : string) : is_weight (weight k).
Proof. unfold weight, is_weight. destruct (in_set k CRITICAL_FINDINGS); auto. Qed.

Lemma weight_positive (w : pyfloat) :
  is_weight w -> exists q, w = Finite q /\ (0 < q)%Q.
Proof. intros [H|H]; subst; eexists; (split; [reflexivity|]); reflexivity. Qed.

Lemma Qsign_inf_positive (b : bool) (q : Q) :
  (0 < q)%Q -> Qsign_inf b q = if b then PosInf else NegInf.
Proof.
  intros H. unfold Qsign_inf.
  apply Qgt_alt in H. rewrite H. reflexivity.
Qed.

Lemma fmul_not_nan (w x : pyfloat) : is_weight w -> not_nan x -> not_nan (fmul w x).
Proof.
  intros W Hx. destruct (weight_positive W) as (q & -> & P).
  destruct x; simpl; try rewrite (Qsign_inf_positive _ P); unfold not_nan; congruence.
Qed.

(** Multiplying by a weight keeps the order, both ways. *)
Lemma fmul_fle (w x y : pyfloat) :
  is_weight w -> fle (fmul w x) (fmul w y) = fle x y.
Proof.
  intros W. destruct (weight_positive W) as (q & -> & P).
  destruct x, y; simpl; try rewrite !(Qsign_inf_positive _ P); try reflexivity.
  apply eq_true_iff_eq. rewrite !Qle_bool_iff, !Qred_correct.
  split; intros H.
  - apply Qmult_lt_0_le_reg_r with (z := q); [exact P|].
    rewrite (Qmult_comm q0), (Qmult_comm q1). exact H.
  - rewrite (Qmult_comm q q0), (Qmult_comm q q1).
    apply Qmult_le_compat_r; [exact H | apply Qlt_le_weak, P].
Qed.

Lemma fmul_zero (w : pyfloat) : is_weight w -> fmul w (Finite 0) = Finite 0.
Proof. intros [H|H]; subst; reflexivity. Qed.

(** *** [max] *)

Lemma py_max_is_maximum (xs : list pyfloat) : forall x,
  Forall not_nan (x :: xs) -> is_maximum (py_max x xs) (x :: xs).
Proof.
  induction xs as [|y r IH]; intros x H.
  - split; [left; reflexivity|].
    intros z [<-|[]]. apply fle_refl. inversion H; assumption.
  - inversion H as [|? ? Hx Hr]; subst. inversion Hr as [|? ? Hy Hr']; subst.
    unfold py_max; simpl. fold (py_max (if fgt y x then y else x) r).
    destruct (fgt y x) eqn:G.
    + destruct (IH y Hr) as [I M]. split.
      * destruct I as [<-|I]; [right; left; reflexivity | right; right; exact I].
      * intros z [<-|Z]; [|apply M, Z].
        apply fle_trans with y; [|apply M; left; reflexivity].
        rewrite fgt_fle in G. apply andb_true_iff in G. apply G.
    + destruct (IH x (Forall_cons _ Hx Hr')) as [I M]. split.
      * destruct I as [<-|I]; [left; reflexivity | right; right; exact I].
      * intros z [<-|[<-|Z]].
        -- apply M; left; reflexivity.
        -- apply fle_trans with x; [|apply M; left; reflexivity].
           apply not_fgt_fle; assumption.
        -- apply M; right; exact Z.
Qed.

(** ** Urgency *)

Lemma weighted_critical (kv : string * pyfloat) :
  is_critical kv = true -> weighted kv = fmul (Finite (5 # 4)) (snd kv).
Proof. unfold weighted, weight, is_critical. intros ->. reflexivity. Qed.

Lemma weighted_other (kv : string * pyfloat) :
  is_critical kv = false -> weighted kv = fmul (Finite 1) (snd kv).
Proof. unfold weighted, weight, is_critical. intros ->. reflexivity. Qed.

Lemma weighted_not_nan (scores : ScoreMap) :
  numeric_scores scores -> Forall not_nan (map weighted scores).
Proof.
  intros H. apply Forall_map. eapply Forall_impl; [|exact H].
  intros kv N. apply fmul_not_nan; [apply weight_is_weight | exact N].
Qed.

Lemma selected_not_nan (p : string * pyfloat -> bool) (scores : ScoreMap) :
  numeric_scores scores -> Forall not_nan (map snd (filter p scores)).
Proof.
  intros H. apply Forall_map, Forall_forall. intros kv I.
  apply filter_In in I. destruct I as [I _].
  exact (proj1 (Forall_forall _ _) H kv I).
Qed.

Lemma urgency_is_maximum (scores : ScoreMap) :
  numeric_scores scores -> scores <> [] ->
  is_maximum (compute_urgency scores) (map weighted scores).
Proof.
  intros H N. apply weighted_not_nan in H. unfold compute_urgency.
  destruct scores as [|kv r]; [congruence|]. simpl in *.
  apply py_max_is_maximum, H.
Qed.

Lemma weighted_le_zero (kv : string * pyfloat) :
  fle (weighted kv) (Finite 0) = fle (snd kv) (Finite 0).
Proof.
  unfold weighted. rewrite <- (fmul_zero (weight_is_weight (fst kv))) at 1.
  apply fmul_fle, weight_is_weight.
Qed.

Lemma weighted_ge_zero (kv : string * pyfloat) :
  fle (Finite 0) (weighted kv) = fle (Finite 0) (snd kv).
Proof.
  unfold weighted. rewrite <- (fmul_zero (weight_is_weight (fst kv))) at 1.
  apply fmul_fle, weight_is_weight.
Qed.

Lemma fle_fmul_one (x y : pyfloat) : fle (fmul (Finite 1) x) y = fle x y.
Proof.
  destruct x, y; simpl; try reflexivity.
  apply eq_true_iff_eq. rewrite !Qle_bool_iff, Qred_correct, Qmult_1_l. reflexivity.
Qed.

(** C1.  For a score map whose scores are numbers: the weight of a finding
    is 1.25 when it is Pneumothorax or Pleural Effusion and 1.0 otherwise;
    the urgency of the empty map is 0.0; the urgency of a non-empty map is
    the largest of the products weight * score; and when the map has both
    critical and other findings, the urgency equals 1.25 times the largest
    critical score if that exceeds the largest other score, and the largest
    other score if not. *)
Theorem compute_urgency_weighted_max (scores : ScoreMap) :
  numeric_scores scores ->
  (forall k, weight k = if (String.eqb k "Pneumothorax" || String.eqb k "Pleural Effusion")%bool
                        then Finite (5 # 4) else Finite 1)
  /\ (scores = [] -> compute_urgency scores = Finite 0)
  /\ (scores <> [] -> is_maximum (compute_urgency scores) (map weighted scores))
  /\ (forall c cs n ns,
        critical_scores scores = c :: cs ->
        other_scores scores = n :: ns ->
        if fgt (fmul (Finite (5 # 4)) (py_max c cs)) (py_max n ns)
        then feq (compute_urgency scores) (fmul (Finite (5 # 4)) (py_max c cs)) = true
        else feq (compute_urgency scores) (py_max n ns) = true).
Proof.
  intros H. split; [|split; [|split]].
  - intros k. unfold weight, in_set, CRITICAL_FINDINGS. simpl.
    rewrite orb_false_r. reflexivity.
  - intros ->. reflexivity.
  - apply urgency_is_maximum, H.
  - intros c cs n ns EC EN.
    assert (NE : scores <> []) by (intros ->; discriminate EC).
    pose proof (urgency_is_maximum H NE) as [UI UM].
    assert (MC : is_maximum (py_max c cs) (critical_scores scores)).
    { rewrite EC. apply py_max_is_maximum. rewrite <- EC. apply selected_not_nan, H. }
    assert (MN : is_maximum (py_max n ns) (other_scores scores)).
    { rewrite EN. apply py_max_is_maximum. rewrite <- EN. apply selected_not_nan, H. }
    set (C := py_max c cs) in *. set (N := py_max n ns) in *.
    destruct MC as [CI CM], MN as [NI NM].
    assert (W : is_weight (Finite (5 # 4))) by (left; reflexivity).
    assert (NC : not_nan C).
    { pose proof (selected_not_nan is_critical H) as F.
      exact (proj1 (Forall_forall _ _) F C CI). }
    assert (NN : not_nan N).
    { pose proof (selected_not_nan (fun kv => negb (is_critical kv)) H) as F.
      exact (proj1 (Forall_forall _ _) F N NI). }
    (* every product is below 1.25 * C or below N *)
    assert (B : forall x, In x (map weighted scores) ->
                fle x (fmul (Finite (5 # 4)) C) = true \/ fle x N = true).
    { intros x I. apply in_map_iff in I. destruct I as (kv & <- & I).
      destruct (is_critical kv) eqn:K.
      - left. rewrite (weighted_critical _ K), (fmul_fle _ _ W).
        apply CM. apply in_map, filter_In. auto.
      - right. rewrite (weighted_other _ K), fle_fmul_one.
        apply NM. apply in_map, filter_In. rewrite K. auto. }
    (* both candidates are reached, up to equality of numbers *)
    assert (RC : fle (fmul (Finite (5 # 4)) C) (compute_urgency scores) = true).
    { unfold critical_scores in CI. apply in_map_iff in CI.
      destruct CI as (kv & E & I). apply filter_In in I. destruct I as [I K].
      rewrite <- E, <- (weighted_critical _ K). apply UM, in_map, I. }
    assert (RN : fle N (compute_urgency scores) = true).
    { unfold other_scores in NI. apply in_map_iff in NI.
      destruct NI as (kv & E & I). apply filter_In in I. destruct I as [I K].
      apply negb_true_iff in K.
      rewrite <- (fle_fmul_one N), <- E, <- (weighted_other _ K). apply UM, in_map, I. }
    destruct (fgt (fmul (Finite (5 # 4)) C) N) eqn:G.
    + rewrite fgt_fle in G. apply andb_true_iff in G. destruct G as [G _].
      rewrite feq_fle, RC, andb_true_r.
      destruct (B _ UI) as [L|L]; [exact L | exact (fle_trans _ _ _ L G)].
    + apply not_fgt_fle in G; [|apply fmul_not_nan; assumption | assumption].
      rewrite feq_fle, RN, andb_true_r.
      destruct (B _ UI) as [L|L]; [exact (fle_trans _ _ _ L G) | exact L].
Qed.

(** A critical finding at 0.9 beside another at 0.95: the urgency is 1.125. *)
Lemma compute_urgency_weighted_max_witness :
  let scores := [("Pneumothorax", Finite (9 # 10)); ("Cardiomegaly", Finite (95 # 100))] in
  numeric_scores scores
  /\ is_maximum (compute_urgency scores) (map weighted scores)
  /\ feq (compute_urgency scores) (Finite (9 # 8)) = true.
Proof.
  intros scores.
  assert (H : numeric_scores scores) by (repeat constructor; discriminate).
  split; [exact H|].
  destruct (compute_urgency_weighted_max H) as (_ & _ & M & X).
  split.
  - apply M. discriminate.
  - exact (X (Finite (9 # 10)) [] (Finite (95 # 100)) [] eq_refl eq_refl).
Defined.

(** A map with a single score of 0.0 is not empty and has urgency 0.0. *)
Lemma urgency_zero_of_nonempty_map :
  ~ (feq (compute_urgency [("Normal", Finite 0)]) (Finite 0) = true
     <-> [("Normal", Finite 0)] = ([] : ScoreMap)).
Proof.
  intros [H _]. specialize (H eq_refl). discriminate H.
Qed.

(** C2, amended.  For a score map whose scores are numbers: the urgency of
    the empty map is 0.0, and the urgency equals 0.0 exactly when the map is
    empty or its largest score is 0.0 (one score is zero and none is
    positive). *)
Theorem compute_urgency_zero (scores : ScoreMap) :
  numeric_scores scores ->
  (scores = [] -> compute_urgency scores = Finite 0)
  /\ (feq (compute_urgency scores) (Finite 0) = true
      <-> scores = []
          \/ ((exists kv, In kv scores /\ feq (snd kv) (Finite 0) = true)
              /\ forall kv, In kv scores -> fle (snd kv) (Finite 0) = true)).
Proof.
  intros H. split; [intros ->; reflexivity|].
  destruct scores as [|kv0 r] eqn:S; [split; [left|]; reflexivity|].
  rewrite <- S in *.
  assert (NE : scores <> []) by (rewrite S; discriminate).
  destruct (urgency_is_maximum H NE) as [UI UM].
  apply in_map_iff in UI. destruct UI as (ku & EU & IU).
  split.
  - intros Z. right. rewrite feq_fle in Z. apply andb_true_iff in Z.
    destruct Z as [Z1 Z2]. split.
    + exists ku. split; [exact IU|].
      rewrite feq_fle, <- weighted_le_zero, <- weighted_ge_zero, EU, Z1, Z2.
      reflexivity.
    + intros kv I. rewrite <- weighted_le_zero.
      apply fle_trans with (compute_urgency scores); [|exact Z1].
      apply UM, in_map, I.
  - intros [E|[(kz & IZ & Z) A]]; [congruence|].
    rewrite feq_fle in Z. apply andb_true_iff in Z. destruct Z as [_ Z2].
    rewrite feq_fle. apply andb_true_iff. split.
    + rewrite <- EU, weighted_le_zero. apply A, IU.
    + apply fle_trans with (weighted kz); [|apply UM, in_map, IZ].
      rewrite weighted_ge_zero. exact Z2.
Qed.

(** A map whose largest score is zero. *)
Lemma compute_urgency_zero_witness :
  let scores := [("Normal", Finite 0); ("Pneumothorax", Finite (-1 # 10))] in
  numeric_scores scores /\ feq (compute_urgency scores) (Finite 0) = true.
Proof.
  intros scores.
  assert (H : numeric_scores scores) by (repeat constructor; discriminate).
  split; [exact H|].
  apply (proj2 (compute_urgency_zero H)). right. split.
  - exists ("Normal", Finite 0). split; [left|]; reflexivity.
  - intros kv [<-|[<-|[]]]; reflexivity.
Defined.


(** ** Upload *)

Lemma signature_mismatch_raise (e : exn) :
  is_TypeError e = true -> signature_mismatch (Raise e).
Proof. intros H. exists e. split; [reflexivity | exact H]. Qed.

(** With an upload operation that fails on the positional call with an
    error other than [TypeError] and accepts both keyword styles,
    [add_image] raises although two of the three variants succeed. *)
Lemma add_image_stops_on_other_error :
  let hoppr := fixed_remote upload_keywords_only no_reply in
  let out := add_image (Ok (logged hoppr)) "study" "a.png" "img" (tt, []) in
  ~ (raised (fst out) = true ->
     Forall (fun c => raised (upload_keywords_only c) = true)
            (upload_variants "study" "a.png" "img")).
Proof.
  intros hoppr out H. specialize (H eq_refl).
  inversion H as [|? ? _ T]. inversion T as [|? ? K _]. discriminate K.
Qed.

(** C5, amended.  Against any remote, [add_image] calls the upload
    operation with the positional style, then the keyword "data" style,
    then the keyword "image_bytes" style, each at most once and never a
    fourth time; it goes on to the next style only after a [TypeError],
    returns as soon as a call succeeds, lets any other exception of a call
    reach the caller at once, and raises [RuntimeError] when all three
    calls raised [TypeError].  With an upload operation that rejects the
    first two styles with [TypeError] and accepts the third, it succeeds
    with exactly these three calls. *)
Theorem add_image_fallback (World : Type) (hoppr : HOPPR World)
        (study_id filename data : string) (w : World) :
  (let out := add_image (Ok (logged hoppr)) study_id filename data (w, []) in
   let r := fst out in
   let log := snd (snd out) in
   exists earlier c o,
     log = (earlier ++ [(c, o)])%list
     /\ map fst log = firstn (List.length log) (upload_variants study_id filename data)
     /\ (List.length log <= 3)%nat
     /\ Forall (fun co => signature_mismatch (snd co)) earlier
     /\ match o with
        | Ok _ => r = Ok tt
        | Raise e =>
            if is_TypeError e
            then List.length log = 3%nat
                 /\ r = Raise (mk_exn RuntimeError
                                 ("add_study_image signature not recognized: " ++ exn_msg e))
            else r = Raise e
        end)
  /\ (forall (upload reply : call -> pyresult pyval) e1 e2 v,
        upload (upload_positional study_id filename data) = Raise e1 ->
        is_TypeError e1 = true ->
        upload (upload_kw_data study_id filename data) = Raise e2 ->
        is_TypeError e2 = true ->
        upload (upload_kw_image_bytes study_id filename data) = Ok v ->
        add_image (Ok (logged (fixed_remote upload reply))) study_id filename data (tt, [])
        = (Ok tt, (tt, [(upload_positional study_id filename data, Raise e1);
                        (upload_kw_data study_id filename data, Raise e2);
                        (upload_kw_image_bytes study_id filename data, Ok v)]))).
Proof.
  split.
  - unfold add_image, io_bind, io_try, io_lift, io_ret, io_raise. simpl.
    destruct (add_study_image hoppr (upload_positional study_id filename data) w)
      as [[v1|e1] w1] eqn:A1; simpl.
    { exists [], (upload_positional study_id filename data), (Ok v1).
      repeat split; auto. }
    destruct (is_TypeError e1) eqn:T1; simpl.
    2:{ exists [], (upload_positional study_id filename data), (Raise e1).
        rewrite T1. repeat split; auto. }
    destruct (add_study_image hoppr (upload_kw_data study_id filename data) w1)
      as [[v2|e2] w2] eqn:A2; simpl.
    { exists [(upload_positional study_id filename data, Raise e1)],
             (upload_kw_data study_id filename data), (Ok v2).
      repeat split; auto.
      repeat constructor. apply signature_mismatch_raise, T1. }
    destruct (is_TypeError e2) eqn:T2; simpl.
    2:{ exists [(upload_positional study_id filename data, Raise e1)],
               (upload_kw_data study_id filename data), (Raise e2).
        rewrite T2. repeat split; auto.
        repeat constructor. apply signature_mismatch_raise, T1. }
    destruct (add_study_image hoppr (upload_kw_image_bytes study_id filename data) w2)
      as [[v3|e3] w3] eqn:A3; simpl.
    { exists [(upload_positional study_id filename data, Raise e1);
              (upload_kw_data study_id filename data, Raise e2)],
             (upload_kw_image_bytes study_id filename data), (Ok v3).
      repeat split; auto.
      repeat constructor; apply signature_mismatch_raise; assumption. }
    exists [(upload_positional study_id filename data, Raise e1);
            (upload_kw_data study_id filename data, Raise e2)],
           (upload_kw_image_bytes study_id filename data), (Raise e3).
    destruct (is_TypeError e3) eqn:T3; simpl; repeat split; auto;
      repeat constructor; apply signature_mismatch_raise; assumption.
  - intros upload reply e1 e2 v U1 T1 U2 T2 U3.
    unfold add_image, io_bind, io_try, io_lift, io_ret. simpl.
    rewrite U1. simpl. rewrite T1. simpl. rewrite U2. simpl. rewrite T2. simpl.
    rewrite U3. reflexivity.
Qed.

(** The upload operation that knows [image_bytes] only: success at the
    third call. *)
Lemma add_image_fallback_witness :
  add_image (Ok (logged (fixed_remote upload_image_bytes_only no_reply)))
            "study" "a.png" "img" (tt, [])
  = (Ok tt,
     (tt, [(upload_positional "study" "a.png" "img",
            Raise (mk_exn TypeError "takes 1 positional argument"));
           (upload_kw_data "study" "a.png" "img",
            Raise (mk_exn TypeError "unexpected keyword argument"));
           (upload_kw_image_bytes "study" "a.png" "img", Ok PNone)])).
Proof.
  apply (proj2 (add_image_fallback (fixed_remote upload_image_bytes_only no_reply)
                                   "study" "a.png" "img" tt));
    reflexivity.
Defined.

(** ** Classifier and narrative calls *)

Lemma has_field_of_other (T : pyval -> bool) (key : string) (p : pyval) :
  isinstance_dict p = false ->
  has_field_of T key p = Ok false \/ exists e, has_field_of T key p = Raise e.
Proof.
  intros H. unfold has_field_of.
  destruct p; try discriminate H; simpl; try (right; eexists; reflexivity).
  - destruct (is_substring key s); simpl; [right; eexists|left]; reflexivity.
  - destruct (existsb (is_str key) l); simpl; [right; eexists|left]; reflexivity.
Qed.

(** Applied to a value that is not a mapping, the extraction yields no
    score: it returns absence or raises. *)
Lemma extract_score_other (p : pyval) :
  isinstance_dict p = false ->
  _extract_score p = Ok None \/ exists e, _extract_score p = Raise e.
Proof.
  intros H. unfold _extract_score.
  destruct (@has_field_of_other isinstance_int_float "score" p H) as [-> | [e ->]];
    [|right; exists e; reflexivity].
  simpl.
  destruct (@has_field_of_other isinstance_dict "response" p H) as [-> | [e ->]];
    [left | right; exists e]; reflexivity.
Qed.

Lemma payload_score_other (p : pyval) :
  isinstance_dict p = false -> payload_score p = None.
Proof.
  intros H. unfold payload_score. destruct (py_truthy p); [|reflexivity].
  destruct (@extract_score_other p H) as [-> | [e ->]]; reflexivity.
Qed.

Lemma str_field_test (key : string) (d : list (string * pyval)) :
  has_field_of isinstance_str key (PDict d)
  = Ok (match str_field key d with Some _ => true | None => false end).
Proof.
  rewrite has_field_of_dict. unfold str_field.
  destruct (dict_get key d) as [v|]; [destruct v|]; reflexivity.
Qed.

Lemma str_field_get (key : string) (d : list (string * pyval)) (s : string) :
  str_field key d = Some s -> py_getitem (PDict d) key = Ok (PStr s).
Proof.
  unfold str_field, py_getitem.
  destruct (dict_get key d) as [v|]; [destruct v|]; congruence.
Qed.

Section Calls.
Variable World : Type.
Variable hoppr : HOPPR World.

(** One iteration of [run_classifiers] never raises, and changes the score
    map by the outcome of its own call alone. *)
Lemma classify_step (study_id : string) (scores : ScoreMap) (name : string)
      (model_id : option string) (w : World) :
  classify hoppr study_id scores (name, model_id) w
  = match given_model model_id with
    | None => (Ok scores, w)
    | Some m =>
        let (r, w') := prompt_model hoppr (classifier_call study_id m) w in
        (Ok (match r with
             | Ok resp =>
                 match payload_score (normalized resp) with
                 | Some s => dict_set scores name s
                 | None => scores
                 end
             | Raise _ => scores
             end), w')
    end.
Proof.
  unfold classify. destruct (given_model model_id) as [m|]; [|reflexivity].
  unfold io_try, io_bind, io_lift, io_ret, payload_score.
  destruct (prompt_model hoppr (classifier_call study_id m) w) as [[resp|e] w'];
    [|reflexivity].
  destruct (py_truthy (normalized resp)); [|reflexivity].
  destruct (_extract_score (normalized resp)) as [[s|]|e]; reflexivity.
Qed.

(** One iteration of the variant with payloads never raises, and changes
    the score map as [classify] does. *)
Lemma classify_with_payload_step (study_id : string) (scores : ScoreMap)
      (payloads : list (string * pyval)) (item : string * option string) (w : World) :
  exists payloads',
    classify_with_payload hoppr study_id (scores, payloads) item w
    = (Ok (match fst (classify hoppr study_id scores item w) with
           | Ok scores' => scores'
           | Raise _ => scores
           end, payloads'),
       snd (classify hoppr study_id scores item w)).
Proof.
  destruct item as [name model_id]. rewrite classify_step.
  unfold classify_with_payload.
  destruct (given_model model_id) as [m|]; [|eexists; reflexivity].
  unfold io_try, io_bind, io_lift, io_ret.
  destruct (prompt_model hoppr (classifier_call study_id m) w) as [[resp|e] w'];
    [|eexists; reflexivity].
  simpl. destruct (py_truthy (normalized resp)) eqn:T.
  - assert (P : py_or (normalized resp) (PDict []) = normalized resp)
      by (unfold py_or; rewrite T; reflexivity).
    rewrite !P. destruct (isinstance_dict (normalized resp)) eqn:D.
    + unfold payload_score. rewrite T.
      destruct (normalized resp); try discriminate D.
      destruct (_extract_score (PDict d)) as [[s|]|e]; eexists; reflexivity.
    + rewrite (@payload_score_other _ D). eexists; reflexivity.
  - assert (P : py_or (normalized resp) (PDict []) = PDict [])
      by (unfold py_or; rewrite T; reflexivity).
    rewrite !P. unfold payload_score. rewrite T. eexists; reflexivity.
Qed.

Lemma classify_total (study_id : string) (scores : ScoreMap)
      (item : string * option string) (w : World) :
  exists scores' w', classify hoppr study_id scores item w = (Ok scores', w').
Proof.
  destruct item as [name model_id]. rewrite classify_step.
  destruct (given_model model_id); [|eauto].
  destruct (prompt_model hoppr (classifier_call study_id s) w); eauto.
Qed.

Lemma classifiers_total (study_id : string) (models : list (string * option string)) :
  forall scores w,
  exists scores' w',
    io_for models (classify hoppr study_id) scores w = (Ok scores', w').
Proof.
  induction models as [|item r IH]; intros scores w; cbn [io_for].
  - unfold io_ret. eauto.
  - unfold io_bind.
    destruct (classify_total study_id scores item w) as (s1 & w1 & ->).
    apply IH.
Qed.

Lemma classifiers_agree (study_id : string) (models : list (string * option string)) :
  forall scores payloads w,
    io_for models (classify hoppr study_id) scores w
    = (let (r, w') :=
         io_for models (classify_with_payload hoppr study_id) (scores, payloads) w in
       (map_result fst r, w')).
Proof.
  induction models as [|item r IH]; intros scores payloads w; cbn [io_for].
  - reflexivity.
  - unfold io_bind.
    destruct (classify_with_payload_step study_id scores payloads item w) as [p' ->].
    destruct (classify_total study_id scores item w) as (s1 & w1 & E).
    rewrite E. cbn [fst snd]. apply IH.
Qed.

(** The narrative call never raises: it returns the text that the outcome
    of the call yields. *)
Lemma run_vlm_result (study_id : string) (w : World) :
  run_vlm (Ok hoppr) study_id w
  = (let (r, w') := prompt_model hoppr (vlm_call study_id) w in
     (Ok (PStr (narrative_of r)), w')).
Proof.
  unfold run_vlm, io_bind, io_try, io_lift, io_ret. simpl.
  destruct (prompt_model hoppr (vlm_call study_id) w) as [[resp|e] w'];
    [|reflexivity].
  simpl. destruct (normalized resp) as [ | ? | ? | ? | ? | ? | ? | d | ? ]; try reflexivity.
  cbn [isinstance_dict findings_text]. rewrite str_field_test.
  destruct (str_field "findings" d) as [s|] eqn:F.
  { rewrite (str_field_get _ _ F). reflexivity. }
  rewrite has_field_of_dict.
  destruct (dict_get "response" d) as [x|] eqn:R; [|reflexivity].
  destruct (isinstance_dict x) eqn:D.
  2:{ destruct x; try discriminate D; reflexivity. }
  destruct x; try discriminate D.
  cbn [py_getitem]. rewrite R, str_field_test.
  destruct (str_field "findings" d0) as [s|] eqn:G; [|reflexivity].
  rewrite (str_field_get _ _ G). reflexivity.
Qed.
End Calls.

(** *** Each finding on its own *)

Lemma dict_get_set_same (V : Type) (d : list (string * V)) (k : string) (v : V) :
  dict_get k (dict_set d k v) = Some v.
Proof.
  induction d as [|[k' v'] r IH]; simpl.
  - rewrite String.eqb_refl. reflexivity.
  - destruct (String.eqb k' k) eqn:E; simpl; rewrite E; [reflexivity | exact IH].
Qed.

Lemma dict_get_set_other (V : Type) (d : list (string * V)) (k k' : string) (v : V) :
  k <> k' -> dict_get k (dict_set d k' v) = dict_get k d.
Proof.
  intros N. induction d as [|[k0 v0] r IH]; simpl.
  - destruct (String.eqb_spec k' k); [congruence | reflexivity].
  - destruct (String.eqb_spec k0 k') as [->|N']; simpl.
    + destruct (String.eqb_spec k' k); [congruence | reflexivity].
    + destruct (String.eqb k0 k); [reflexivity | exact IH].
Qed.

Lemma dict_get_absent (V : Type) (d : list (string * V)) (k : string) :
  ~ In k (dict_keys d) -> dict_get k d = None.
Proof.
  induction d as [|[k' v'] r IH]; simpl; intros N; [reflexivity|].
  destruct (String.eqb_spec k' k) as [->|_].
  - exfalso. apply N. left. reflexivity.
  - apply IH. intros I. apply N. right. exact I.
Qed.

Lemma classify_fixed (upload reply : call -> pyresult pyval) (study_id : string)
      (scores : ScoreMap) (name : string) (model_id : option string) :
  classify (fixed_remote upload reply) study_id scores (name, model_id) tt
  = (Ok (record_score scores name (finding_score reply study_id model_id)), tt).
Proof.
  rewrite classify_step. unfold finding_score, record_score.
  destruct (given_model model_id) as [m|]; [|reflexivity].
  cbn [fixed_remote prompt_model].
  destruct (reply (classifier_call study_id m)) as [resp|e]; [|reflexivity].
  destruct (payload_score (normalized resp)); reflexivity.
Qed.

Lemma dict_get_record_score (scores : ScoreMap) (name key : string) (s : option pyfloat) :
  dict_get key (record_score scores name s)
  = if String.eqb name key
    then match s with Some x => Some x | None => dict_get key scores end
    else dict_get key scores.
Proof.
  unfold record_score. destruct (String.eqb_spec name key) as [->|N].
  - destruct s; [apply dict_get_set_same | reflexivity].
  - destruct s; [apply dict_get_set_other; congruence | reflexivity].
Qed.

(** Against a remote with fixed replies, the loop of [run_classifiers]
    gives each listed finding the score of its own call, and leaves the
    other entries of the map as they were. *)
Lemma classifiers_pointwise (upload reply : call -> pyresult pyval) (study_id : string)
      (models : list (string * option string)) :
  NoDup (dict_keys models) ->
  forall scores,
  exists scores',
    io_for models (classify (fixed_remote upload reply) study_id) scores tt
    = (Ok scores', tt)
    /\ forall name,
        dict_get name scores'
        = match dict_get name models with
          | Some model_id =>
              match finding_score reply study_id model_id with
              | Some s => Some s
              | None => dict_get name scores
              end
          | None => dict_get name scores
          end.
Proof.
  induction models as [|[n0 m0] r IH]; intros ND scores; cbn [io_for].
  - exists scores. split; reflexivity.
  - inversion ND as [|? ? NI ND']; subst.
    unfold io_bind. rewrite classify_fixed.
    destruct (IH ND' (record_score scores n0 (finding_score reply study_id m0)))
      as (scores' & R & L).
    exists scores'. split; [exact R|].
    intros name. rewrite L, dict_get_record_score.
    change (dict_get name ((n0, m0) :: r))
      with (if String.eqb n0 name then Some m0 else dict_get name r).
    destruct (String.eqb_spec n0 name) as [<-|N]; [|reflexivity].
    rewrite (dict_get_absent _ _ NI). reflexivity.
Qed.

(** The three ways a call can fail to give a score. *)
Lemma finding_score_raises (reply : call -> pyresult pyval) (study_id m : string) (e : exn) :
  reply (classifier_call study_id m) = Raise e ->
  finding_score reply study_id (Some m) = None.
Proof.
  intros H. unfold finding_score, given_model.
  destruct (String.eqb m EmptyString); [reflexivity|]. rewrite H. reflexivity.
Qed.

Lemma finding_score_unparsable (reply : call -> pyresult pyval) (study_id m : string)
      (resp : pyval) :
  reply (classifier_call study_id m) = Ok resp ->
  py_truthy (normalized resp) = false ->
  finding_score reply study_id (Some m) = None.
Proof.
  intros H T. unfold finding_score, given_model.
  destruct (String.eqb m EmptyString); [reflexivity|].
  rewrite H. unfold payload_score. rewrite T. reflexivity.
Qed.

Lemma finding_score_no_field (reply : call -> pyresult pyval) (study_id m : string)
      (resp : pyval) (d : list (string * pyval)) :
  reply (classifier_call study_id m) = Ok resp ->
  normalized resp = PDict d ->
  numeric_score d = None ->
  (forall inner, dict_get "response" d = Some (PDict inner) -> numeric_score inner = None) ->
  finding_score reply study_id (Some m) = None.
Proof.
  intros H N S R. unfold finding_score, given_model.
  destruct (String.eqb m EmptyString); [reflexivity|].
  rewrite H. unfold payload_score. rewrite N.
  destruct (py_truthy (PDict d)); [|reflexivity].
  rewrite (extract_score_none _ S R). reflexivity.
Qed.

Lemma narrative_unparsable (resp : pyval) :
  py_truthy (normalized resp) = false -> narrative_of (Ok resp) = EmptyString.
Proof.
  unfold narrative_of. destruct (normalized resp) as [ | ? | ? | ? | ? | ? | ? | d | ? ];
    try reflexivity.
  destruct d; [reflexivity | discriminate].
Qed.

(** C6.  Per-model failures are not fatal.  Against any remote,
    [run_classifiers] returns a score map and never raises; against a
    remote with fixed replies the score of each finding is the one its own
    call yields, whatever the other calls do, and it is absent when that
    call raises, when its reply is unparsable and when the reply has no
    numeric score; [run_vlm] always returns a text, the "findings" of the
    reply when there is one, and the empty text when the call raises or the
    reply is unparsable. *)
Theorem per_model_failures_are_silent :
  (forall (World : Type) (hoppr : HOPPR World) study_id models w,
      exists scores w', run_classifiers (Ok hoppr) study_id models w = (Ok scores, w'))
  /\ (forall (upload reply : call -> pyresult pyval) study_id models,
        NoDup (dict_keys models) ->
        exists scores,
          run_classifiers (Ok (fixed_remote upload reply)) study_id models tt = (Ok scores, tt)
          /\ forall name,
              dict_get name scores
              = match dict_get name models with
                | Some model_id => finding_score reply study_id model_id
                | None => None
                end)
  /\ (forall reply study_id m,
        (forall e, reply (classifier_call study_id m) = Raise e ->
                   finding_score reply study_id (Some m) = None)
        /\ (forall resp, reply (classifier_call study_id m) = Ok resp ->
                         py_truthy (normalized resp) = false ->
                         finding_score reply study_id (Some m) = None)
        /\ (forall resp d,
              reply (classifier_call study_id m) = Ok resp ->
              normalized resp = PDict d ->
              numeric_score d = None ->
              (forall inner, dict_get "response" d = Some (PDict inner) ->
                             numeric_score inner = None) ->
              finding_score reply study_id (Some m) = None))
  /\ (forall (World : Type) (hoppr : HOPPR World) study_id w,
        run_vlm (Ok hoppr) study_id w
        = (let (r, w') := prompt_model hoppr (vlm_call study_id) w in
           (Ok (PStr (narrative_of r)), w')))
  /\ (forall e, narrative_of (Raise e) = EmptyString)
  /\ (forall resp, py_truthy (normalized resp) = false ->
                   narrative_of (Ok resp) = EmptyString).
Proof.
  split; [|split; [|split; [|split; [|split]]]].
  - intros World hoppr study_id models w.
    unfold run_classifiers, io_bind, io_lift. apply classifiers_total.
  - intros upload reply study_id models ND.
    destruct (@classifiers_pointwise upload reply study_id models ND [])
      as (scores & R & L).
    exists scores. split; [exact R|].
    intros name. rewrite L.
    destruct (dict_get name models) as [model_id|]; [|reflexivity].
    destruct (finding_score reply study_id model_id); reflexivity.
  - intros reply study_id m. split; [|split].
    + intros e. apply finding_score_raises.
    + intros resp. apply finding_score_unparsable.
    + intros resp d. apply finding_score_no_field.
  - intros World hoppr study_id w. apply run_vlm_result.
  - reflexivity.
  - apply narrative_unparsable.
Qed.

(** The table of the module has distinct findings. *)
Lemma FINDING_MODELS_distinct : NoDup (dict_keys FINDING_MODELS).
Proof.
  repeat constructor; simpl; intuition discriminate.
Defined.

(** On the table of the module, with the sample replies: the failed and the
    unparsable replies leave no score, a finding without model has none,
    and the cardiomegaly finding keeps its own. *)
Lemma per_model_failures_are_silent_witness :
  exists scores,
    run_classifiers (Ok (fixed_remote no_reply sample_reply)) "study" FINDING_MODELS tt
    = (Ok scores, tt)
    /\ dict_get "Pneumothorax" scores = None
    /\ dict_get "Pleural Effusion" scores = None
    /\ dict_get "Normal" scores = None
    /\ dict_get "Cardiomegaly" scores = Some (Finite (7 # 10)).
Proof.
  destruct (proj1 (proj2 per_model_failures_are_silent)
              no_reply sample_reply "study" FINDING_MODELS FINDING_MODELS_distinct)
    as (scores & R & L).
  exists scores. split; [exact R|].
  rewrite !L. repeat split; vm_compute; reflexivity.
Defined.

(** C9.  Whatever the remote does, the score map of [run_classifiers] is
    the score map that [run_classifiers_with_payload] returns on the same
    model table, and the two leave the remote in the same state. *)
Theorem classifier_scores_agree (World : Type) (get_hoppr : pyresult (HOPPR World))
        (study_id : string) (models : list (string * option string)) (w : World) :
  run_classifiers get_hoppr study_id models w
  = (let (r, w') := run_classifiers_with_payload get_hoppr study_id models w in
     (map_result fst r, w')).
Proof.
  unfold run_classifiers, run_classifiers_with_payload, io_bind, io_lift.
  destruct get_hoppr as [hoppr|e]; [|reflexivity].
  apply classifiers_agree.
Qed.

(** ** Keyword highlights *)

Lemma strip_prefix_append (k text rest : string) :
  strip_prefix k text = Some rest <-> text = k ++ rest.
Proof.
  revert text. induction k as [|a k IH]; intros text; simpl.
  - split; congruence.
  - destruct text as [|b t]; [split; discriminate|].
    destruct (Ascii.eqb_spec a b) as [->|N].
    + rewrite IH. split; congruence.
    + split; [discriminate | congruence].
Qed.

Lemma word_ended_facts (k : string) :
  word_ended k = true ->
  exists c r, k = String c r /\ is_word_char c = true
              /\ word_at (last_char None k) = true.
Proof.
  unfold word_ended. intros H. apply andb_true_iff in H. destruct H as [F L].
  destruct k as [|c r]; [discriminate F|]. exists c, r. auto.
Qed.

(** At the head of the text the pattern matches exactly when the keyword
    is there, after a non-word neighbour and before a non-word neighbour. *)
Lemma match_here_spec (before : option ascii) (k text : string) :
  word_ended k = true ->
  match_here before k text = true
  <-> exists post, text = k ++ post
                   /\ word_at before = false
                   /\ word_at (first_char post) = false.
Proof.
  intros W. destruct (@word_ended_facts _ W) as (c & r & -> & WC & WL).
  unfold match_here. split.
  - destruct (strip_prefix (String c r) text) as [rest|] eqn:S; [|discriminate].
    apply strip_prefix_append in S. subst text. intros H.
    apply andb_true_iff in H. destruct H as [B1 B2].
    exists rest. split; [reflexivity|].
    unfold at_boundary in *. simpl in B1. rewrite WC in B1.
    change (last_char before (String c r)) with (last_char None (String c r)) in B2.
    rewrite WL in B2.
    destruct (word_at before), (word_at (first_char rest)); try discriminate; auto.
  - intros (post & -> & B & A).
    assert (S : strip_prefix (String c r) (String c r ++ post) = Some post)
      by (apply strip_prefix_append; reflexivity).
    rewrite S. unfold at_boundary.
    change (last_char before (String c r)) with (last_char None (String c r)).
    rewrite WL, A, B. simpl. rewrite WC. reflexivity.
Qed.

Lemma search_from_spec (k : string) :
  word_ended k = true ->
  forall text before,
    search_from before k text = true
    <-> exists pre post,
          text = pre ++ k ++ post
          /\ word_at (last_char before pre) = false
          /\ word_at (first_char post) = false.
Proof.
  intros W. induction text as [|c t IH]; intros before.
  - cbn [search_from]. rewrite orb_false_r, (@match_here_spec _ _ _ W). split.
    + intros (post & E & B & A). exists EmptyString, post. auto.
    + intros (pre & post & E & B & A).
      destruct pre as [|? ?]; [|discriminate E].
      exists post. auto.
  - cbn [search_from]. rewrite orb_true_iff, (@match_here_spec _ _ _ W), IH. split.
    + intros [(post & E & B & A) | (pre & post & E & B & A)].
      * exists EmptyString, post. auto.
      * exists (String c pre), post. rewrite E. auto.
    + intros (pre & post & E & B & A). destruct pre as [|c' pre].
      * left. exists post. auto.
      * right. simpl in E. injection E as -> ->. exists pre, post. auto.
Qed.

Lemma keywords_word_ended : forallb word_ended keywords = true.
Proof. vm_compute. reflexivity. Qed.

Lemma re_search_word_spec (k text : string) :
  In k keywords -> (re_search_word k text = true <-> word_occurs k text).
Proof.
  intros I. apply search_from_spec.
  exact (proj1 (forallb_forall _ _) keywords_word_ended k I).
Qed.

(** *** [set] and [sorted] *)

Lemma in_set_In (x : string) (l : list string) : in_set x l = true <-> In x l.
Proof.
  unfold in_set. rewrite existsb_exists. split.
  - intros (y & I & E). apply String.eqb_eq in E. subst. exact I.
  - intros I. exists x. split; [exact I | apply String.eqb_refl].
Qed.

Lemma py_set_In (l : list string) (x : string) : In x (py_set l) <-> In x l.
Proof.
  induction l as [|y r IH]; simpl; [reflexivity|].
  destruct (in_set y r) eqn:E; simpl; rewrite IH; [|reflexivity].
  apply in_set_In in E. split; [auto|]. intros [<-|I]; assumption.
Qed.

Lemma py_set_NoDup (l : list string) : NoDup (py_set l).
Proof.
  induction l as [|y r IH]; simpl; [constructor|].
  destruct (in_set y r) eqn:E; [exact IH|].
  constructor; [|exact IH]. rewrite py_set_In, <- in_set_In. congruence.
Qed.

Lemma insert_sorted_In (x : string) (l : list string) (z : string) :
  In z (insert_sorted x l) <-> z = x \/ In z l.
Proof.
  induction l as [|y r IH]; simpl; [intuition|].
  destruct (String.ltb y x); simpl; [rewrite IH|]; intuition.
Qed.

Lemma insert_sorted_NoDup (x : string) (l : list string) :
  ~ In x l -> NoDup l -> NoDup (insert_sorted x l).
Proof.
  induction l as [|y r IH]; simpl; intros N D.
  - constructor; [intros []|constructor].
  - inversion D as [|? ? Ny Dr]; subst.
    destruct (String.ltb y x).
    + constructor.
      * rewrite insert_sorted_In. intros [->|I]; [apply N; left; reflexivity | exact (Ny I)].
      * apply IH; [intros I; apply N; right; exact I | exact Dr].
    + constructor; assumption.
Qed.

Lemma ltb_connected (x y : string) : x <> y -> String.ltb y x = false -> string_lt x y.
Proof.
  unfold string_lt, String.ltb. intros N H.
  rewrite String.compare_antisym.
  destruct (String.compare y x) eqn:C; try discriminate H; [|reflexivity].
  apply String.compare_eq_iff in C. congruence.
Qed.

Lemma insert_sorted_Sorted (x : string) (l : list string) :
  ~ In x l -> Sorted string_lt l -> Sorted string_lt (insert_sorted x l).
Proof.
  induction l as [|y r IH]; simpl; intros N S.
  - repeat constructor.
  - inversion S as [|? ? Sr Hd]; subst.
    destruct (String.ltb y x) eqn:L.
    + constructor.
      * apply IH; [intros I; apply N; right; exact I | exact Sr].
      * destruct r as [|z r']; simpl.
        -- constructor. exact L.
        -- destruct (String.ltb z x); constructor; [|exact L].
           inversion Hd; assumption.
    + constructor; [exact S|]. constructor.
      apply ltb_connected; [|exact L]. intros ->. apply N. left. reflexivity.
Qed.

Lemma py_sorted_In (l : list string) (z : string) : In z (py_sorted l) <-> In z l.
Proof.
  induction l as [|x r IH]; simpl; [reflexivity|].
  rewrite insert_sorted_In, IH. intuition.
Qed.

Lemma py_sorted_of_set (l : list string) :
  NoDup l -> Sorted string_lt (py_sorted l) /\ NoDup (py_sorted l).
Proof.
  induction l as [|x r IH]; simpl; intros D.
  - split; constructor.
  - inversion D as [|? ? N Dr]; subst. destruct (IH Dr) as [S U].
    assert (N' : ~ In x (py_sorted r)) by (rewrite py_sorted_In; exact N).
    split; [apply insert_sorted_Sorted | apply insert_sorted_NoDup]; assumption.
Qed.

Lemma lower_empty (t : string) : lower t = EmptyString <-> t = EmptyString.
Proof. destruct t; simpl; split; congruence. Qed.

(** C8.  The highlights of the empty narrative are empty; the highlights
    of any narrative are in strictly ascending alphabetical order, without
    repetition; a term is among them exactly when it is in the vocabulary
    and occurs in the lower-cased narrative as a whole word; narratives
    that differ by letter case only have the same highlights; and the
    narrative of the specification gives "effusion" and "pneumothorax". *)
Theorem extract_keywords_highlights :
  extract_keywords EmptyString = []
  /\ (forall t, Sorted string_lt (extract_keywords t) /\ NoDup (extract_keywords t))
  /\ (forall t k,
        In k (extract_keywords t) <-> In k keywords /\ word_occurs k (lower t))
  /\ (forall t t', lower t = lower t' -> extract_keywords t = extract_keywords t')
  /\ extract_keywords "Findings consistent with pneumothorax and pleural effusion."
     = ["effusion"; "pneumothorax"].
Proof.
  split; [reflexivity|]. split; [|split; [|split]].
  - intros t. unfold extract_keywords.
    destruct (String.eqb t EmptyString); [split; constructor|].
    apply py_sorted_of_set, py_set_NoDup.
  - intros t k. unfold extract_keywords.
    destruct (String.eqb_spec t EmptyString) as [->|N].
    + split; [intros []|]. intros [I (pre & post & E & _)].
      exfalso. simpl in E.
      assert (K : k <> EmptyString).
      { intros ->. revert I. vm_compute. intuition discriminate. }
      destruct pre; [destruct k; [exact (K eq_refl) | discriminate E] | discriminate E].
    + rewrite py_sorted_In, py_set_In, filter_In. split.
      * intros [I M]. split; [exact I|]. apply (@re_search_word_spec _ _ I), M.
      * intros [I M]. split; [exact I|]. apply (@re_search_word_spec _ _ I), M.
  - intros t t' E. unfold extract_keywords. rewrite E.
    destruct (String.eqb_spec t EmptyString) as [->|N];
      destruct (String.eqb_spec t' EmptyString) as [->|N']; try reflexivity.
    symmetry in E. apply (proj1 (lower_empty t')) in E. congruence.
  - vm_compute. reflexivity.
Qed.

(** Two narratives that differ by case, and a term found as a whole word. *)
Lemma extract_keywords_highlights_witness :
  extract_keywords "No PNEUMOTHORAX; small Effusion." = extract_keywords "no pneumothorax; small effusion."
  /\ In "effusion" (extract_keywords "No PNEUMOTHORAX; small Effusion.").
Proof.
  destruct extract_keywords_highlights as (_ & _ & M & C & _). split.
  - apply C. reflexivity.
  - apply M. split.
    + vm_compute. tauto.
    + exists "no pneumothorax; small ", ".". repeat split.
Defined.

(* ================================================================== *)
(** * Further properties *)

(** ** The normalised reply *)

Lemma to_dict_getattr (resp : pyval) :
  _to_dict (py_getattr resp "response" resp) = _to_dict resp.
Proof.
  destruct resp; try reflexivity.
  rewrite to_dict_object. unfold py_getattr.
  destruct (dict_get "response" attrs) eqn:E; [reflexivity|].
  rewrite to_dict_object, E. reflexivity.
Qed.

Lemma normalized_to_dict (resp : pyval) : normalized resp = _to_dict resp.
Proof.
  unfold normalized, py_or. rewrite to_dict_getattr.
  destruct (py_truthy (_to_dict resp)); reflexivity.
Qed.

(** X1.  In [_to_dict(resp) or _to_dict(getattr(resp, "response", resp))]
    the second operand always equals the first, so the expression is
    [_to_dict(resp)]; and a reply wrapped in an object that holds it as
    its "response" attribute normalises as the bare reply does. *)
Theorem normalized_fallback_redundant :
  (forall resp, normalized resp = _to_dict resp)
  /\ (forall attrs x,
        dict_get "response" attrs = Some x ->
        normalized (PObj attrs) = normalized x).
Proof.
  split; [apply normalized_to_dict|].
  intros attrs x H. rewrite !normalized_to_dict, to_dict_object, H. reflexivity.
Qed.

(** A score nested in two wrappers normalises as the bare mapping. *)
Lemma normalized_fallback_redundant_witness :
  normalized (PObj [("status", PInt 200);
                    ("response", PObj [("response", PDict [("score", PInt 1)])])])
  = PDict [("score", PInt 1)].
Proof.
  etransitivity.
  - apply (proj2 normalized_fallback_redundant
             [("status", PInt 200);
              ("response", PObj [("response", PDict [("score", PInt 1)])])]
             (PObj [("response", PDict [("score", PInt 1)])])).
    reflexivity.
  - apply (proj2 normalized_fallback_redundant
             [("response", PDict [("score", PInt 1)])] (PDict [("score", PInt 1)])).
    reflexivity.
Defined.

(** ** The calls of [run_classifiers] *)

Lemma classify_journaled (World : Type) (hoppr : HOPPR World) (study_id : string)
      (models : list (string * option string)) :
  forall scores w log,
    io_for models (classify (journaled hoppr) study_id) scores (w, log)
    = let (r, w') := io_for models (classify hoppr study_id) scores w in
      (r, (w', (log ++ map (fun m => (PromptModel, classifier_call study_id m))
                           (given_models models))%list)).
Proof.
  induction models as [|[name model_id] r IH]; intros scores w log; cbn [io_for].
  - unfold io_ret, given_models. simpl. rewrite app_nil_r. reflexivity.
  - unfold io_bind. rewrite !classify_step.
    unfold given_models. cbn [flat_map snd]. fold (given_models r).
    destruct (given_model model_id) as [m|]; [|apply IH].
    cbn [journaled prompt_model fst snd].
    destruct (prompt_model hoppr (classifier_call study_id m) w) as [o w1].
    rewrite IH, map_app, <- app_assoc. reflexivity.
Qed.

(** X3.  Against any remote, [run_classifiers] calls the operation
    [prompt_model] once for each finding of the table that has a model
    identifier, in the order of the table and with the classifier
    arguments, whatever the outcomes of the calls; it makes no call for a
    finding whose identifier is [None] or empty, and no call of the other
    operation.  Keeping the journal changes neither the result nor the
    final state of the remote. *)
Theorem run_classifiers_calls (World : Type) (hoppr : HOPPR World)
        (study_id : string) (models : list (string * option string)) (w : World) :
  run_classifiers (Ok (journaled hoppr)) study_id models (w, [])
  = let (r, w') := run_classifiers (Ok hoppr) study_id models w in
    (r, (w', map (fun m => (PromptModel, classifier_call study_id m))
                 (given_models models))).
Proof.
  unfold run_classifiers, io_bind, io_lift. apply classify_journaled.
Qed.

(** ** The keys of the score map *)

Lemma dict_keys_set_new (V : Type) (d : list (string * V)) (k : string) (v : V) :
  ~ In k (dict_keys d) -> dict_keys (dict_set d k v) = (dict_keys d ++ [k])%list.
Proof.
  induction d as [|[k' v'] r IH]; simpl; intros N; [reflexivity|].
  destruct (String.eqb_spec k' k) as [->|_].
  - exfalso. apply N. left. reflexivity.
  - simpl. f_equal. apply IH. intros I. apply N. right. exact I.
Qed.

Lemma called_findings_incl (models : list (string * option string)) (k : string) :
  In k (called_findings models) -> In k (dict_keys models).
Proof.
  unfold called_findings, dict_keys. intros I.
  apply in_map_iff in I. destruct I as (item & <- & I).
  apply filter_In in I. apply in_map, I.
Qed.

Lemma filter_agree (l : list string) (f g : string -> bool) :
  (forall k, In k l -> f k = g k) -> filter f l = filter g l.
Proof.
  induction l as [|x r IH]; simpl; intros H; [reflexivity|].
  rewrite (H x (or_introl eq_refl)), IH; [reflexivity|].
  intros k I. apply H. right. exact I.
Qed.

Lemma classifiers_keys (World : Type) (hoppr : HOPPR World) (study_id : string)
      (models : list (string * option string)) :
  NoDup (dict_keys models) ->
  forall scores w,
    (forall k, In k (dict_keys scores) -> ~ In k (dict_keys models)) ->
    exists scores' w' kept,
      io_for models (classify hoppr study_id) scores w = (Ok scores', w')
      /\ dict_keys scores'
         = (dict_keys scores ++ filter kept (called_findings models))%list.
Proof.
  induction models as [|[n0 m0] r IH]; intros ND scores w D; cbn [io_for].
  - exists scores, w, (fun _ => true). split; [reflexivity|].
    simpl. rewrite app_nil_r. reflexivity.
  - inversion ND as [|? ? NI ND']; subst.
    assert (D0 : ~ In n0 (dict_keys scores)).
    { intros I. apply (D _ I). left. reflexivity. }
    assert (Dr : forall k, In k (dict_keys scores) -> ~ In k (dict_keys r)).
    { intros k I J. apply (D _ I). right. exact J. }
    assert (NC : ~ In n0 (called_findings r)).
    { intros I. apply NI, called_findings_incl, I. }
    unfold io_bind. rewrite classify_step. unfold called_findings.
    cbn [filter snd]. fold (called_findings r).
    destruct (given_model m0) as [m|].
    2:{ destruct (IH ND' scores w Dr) as (s' & w' & kept & R & K).
        exists s', w', kept. split; assumption. }
    destruct (prompt_model hoppr (classifier_call study_id m) w) as [o w1].
    cbn [map fst]. fold (called_findings r).
    assert (SET : forall x,
               exists s' w' kept,
                 io_for r (classify hoppr study_id) (dict_set scores n0 x) w1 = (Ok s', w')
                 /\ dict_keys s'
                    = (dict_keys scores ++ filter kept (n0 :: called_findings r))%list).
    { intros x.
      destruct (IH ND' (dict_set scores n0 x) w1) as (s' & w' & kept & R & K).
      { intros k I. rewrite dict_keys_set_new in I by exact D0.
        apply in_app_or in I. destruct I as [I|[<-|[]]]; [apply Dr, I | exact NI]. }
      exists s', w', (fun k => String.eqb k n0 || kept k). split; [exact R|].
      rewrite K, dict_keys_set_new by exact D0.
      cbn [filter]. rewrite String.eqb_refl. cbn [orb].
      rewrite <- app_assoc. cbn [app]. do 2 f_equal.
      apply filter_agree. intros k I.
      destruct (String.eqb_spec k n0) as [->|_]; [contradiction | reflexivity]. }
    assert (SKIP : exists s' w' kept,
               io_for r (classify hoppr study_id) scores w1 = (Ok s', w')
               /\ dict_keys s'
                  = (dict_keys scores ++ filter kept (n0 :: called_findings r))%list).
    { destruct (IH ND' scores w1 Dr) as (s' & w' & kept & R & K).
      exists s', w', (fun k => negb (String.eqb k n0) && kept k). split; [exact R|].
      rewrite K. cbn [filter]. rewrite String.eqb_refl. cbn [negb andb].
      f_equal. apply filter_agree. intros k I.
      destruct (String.eqb_spec k n0) as [->|_]; [contradiction | reflexivity]. }
    destruct o as [resp|e]; [|exact SKIP].
    destruct (payload_score (normalized resp)) as [x|]; [apply SET | exact SKIP].
Qed.

(** X2.  Against any remote and for a table with distinct finding names,
    the keys of the score map that [run_classifiers] returns are a
    selection, in the order of the table, of the findings that have a model
    identifier; they are distinct. *)
Theorem run_classifiers_keys (World : Type) (hoppr : HOPPR World)
        (study_id : string) (models : list (string * option string)) (w : World) :
  NoDup (dict_keys models) ->
  exists scores w' kept,
    run_classifiers (Ok hoppr) study_id models w = (Ok scores, w')
    /\ dict_keys scores = filter kept (called_findings models)
    /\ NoDup (dict_keys scores).
Proof.
  intros ND.
  destruct (@classifiers_keys World hoppr study_id models ND [] w)
    as (scores & w' & kept & R & K); [intros k []|].
  exists scores, w', kept. split; [exact R|]. split; [exact K|].
  rewrite K. apply NoDup_filter.
  unfold called_findings.
  assert (G : forall l : list (string * option string),
             NoDup (map fst l) ->
             NoDup (map fst (filter (fun item => match given_model (snd item) with
                                                 | Some _ => true
                                                 | None => false
                                                 end) l))).
  { induction l as [|x l IH]; simpl; intros H; [constructor|].
    inversion H as [|? ? N H']; subst.
    destruct (given_model (snd x)); [|apply IH, H'].
    simpl. constructor; [|apply IH, H'].
    intros I. apply N. apply in_map_iff in I. destruct I as (y & E & I).
    apply filter_In in I. rewrite <- E. apply in_map, I. }
  apply G, ND.
Qed.

(** On the table of the module with the sample replies, the only key is
    the cardiomegaly finding. *)
Lemma run_classifiers_keys_witness :
  exists scores w' kept,
    run_classifiers (Ok (fixed_remote no_reply sample_reply)) "study" FINDING_MODELS tt
    = (Ok scores, w')
    /\ dict_keys scores = filter kept (called_findings FINDING_MODELS)
    /\ NoDup (dict_keys scores).
Proof.
  apply (@run_classifiers_keys unit (fixed_remote no_reply sample_reply) "study"
            FINDING_MODELS tt).
  exact FINDING_MODELS_distinct.
Defined.

(** ** The payload records *)

Lemma dict_get_update (V : Type) (d : list (string * V)) (name key : string) (o : option V) :
  dict_get key (match o with Some x => dict_set d name x | None => d end)
  = if String.eqb name key
    then match o with Some x => Some x | None => dict_get key d end
    else dict_get key d.
Proof.
  destruct (String.eqb_spec name key) as [->|N].
  - destruct o; [apply dict_get_set_same | reflexivity].
  - destruct o; [apply dict_get_set_other; congruence | reflexivity].
Qed.

Lemma classify_with_payload_fixed (upload reply : call -> pyresult pyval)
      (study_id : string) (scores : ScoreMap) (payloads : list (string * pyval))
      (name : string) (model_id : option string) :
  classify_with_payload (fixed_remote upload reply) study_id (scores, payloads)
                        (name, model_id) tt
  = (Ok (record_score scores name (finding_score reply study_id model_id),
         match finding_record reply study_id model_id with
         | Some record => dict_set payloads name record
         | None => payloads
         end), tt).
Proof.
  unfold classify_with_payload, finding_score, finding_record, record_score.
  destruct (given_model model_id) as [m|]; [|reflexivity].
  unfold io_try, io_bind, io_lift, io_ret. cbn [fixed_remote prompt_model].
  destruct (reply (classifier_call study_id m)) as [resp|e]; [|reflexivity].
  cbn [classifier_record payload_record]. unfold extraction_error.
  rewrite <- normalized_to_dict. unfold payload_score.
  destruct (py_truthy (normalized resp)) eqn:T.
  - assert (P : py_or (normalized resp) (PDict []) = normalized resp)
      by (unfold py_or; rewrite T; reflexivity).
    rewrite !P, T. destruct (isinstance_dict (normalized resp)) eqn:D.
    + destruct (normalized resp); try discriminate D.
      destruct (_extract_score (PDict d)) as [[s|]|e]; reflexivity.
    + destruct (@extract_score_other _ D) as [-> | [e ->]]; reflexivity.
  - assert (P : py_or (normalized resp) (PDict []) = PDict [])
      by (unfold py_or; rewrite T; reflexivity).
    rewrite !P.
    destruct (normalized resp) as [ | | | | | | |d| ]; try reflexivity.
    destruct d; [reflexivity | discriminate T].
Qed.

Lemma payloads_pointwise (upload reply : call -> pyresult pyval) (study_id : string)
      (models : list (string * option string)) :
  NoDup (dict_keys models) ->
  forall scores payloads,
  exists scores' payloads',
    io_for models (classify_with_payload (fixed_remote upload reply) study_id)
           (scores, payloads) tt
    = (Ok (scores', payloads'), tt)
    /\ forall name,
        dict_get name payloads'
        = match dict_get name models with
          | Some model_id =>
              match finding_record reply study_id model_id with
              | Some record => Some record
              | None => dict_get name payloads
              end
          | None => dict_get name payloads
          end.
Proof.
  induction models as [|[n0 m0] r IH]; intros ND scores payloads; cbn [io_for].
  - exists scores, payloads. split; reflexivity.
  - inversion ND as [|? ? NI ND']; subst.
    unfold io_bind. rewrite classify_with_payload_fixed.
    destruct (IH ND' (record_score scores n0 (finding_score reply study_id m0))
                 (match finding_record reply study_id m0 with
                  | Some record => dict_set payloads n0 record
                  | None => payloads
                  end)) as (scores' & payloads' & R & L).
    exists scores', payloads'. split; [exact R|].
    intros name. rewrite L, dict_get_update.
    change (dict_get name ((n0, m0) :: r))
      with (if String.eqb n0 name then Some m0 else dict_get name r).
    destruct (String.eqb_spec n0 name) as [<-|N]; [|reflexivity].
    rewrite (dict_get_absent _ _ NI). reflexivity.
Qed.

(** X8.  Against a remote with fixed replies and for a table with distinct
    finding names, [run_classifiers_with_payload] records one payload for
    every finding that has a model identifier and none for the others: the
    error text when the call raised, and also when the extraction of the
    score raised, which is the overflow of [float] on an [int] too large;
    otherwise the normalised reply when it is not empty, and the note
    "empty or unparsable payload" when it is. *)
Theorem run_classifiers_with_payload_records
        (upload reply : call -> pyresult pyval) (study_id : string)
        (models : list (string * option string)) :
  NoDup (dict_keys models) ->
  (exists scores payloads,
     run_classifiers_with_payload (Ok (fixed_remote upload reply)) study_id models tt
     = (Ok (scores, payloads), tt)
     /\ forall name,
         dict_get name payloads
         = match dict_get name models with
           | Some model_id => finding_record reply study_id model_id
           | None => None
           end)
  /\ (forall e, classifier_record (Raise e) = PDict [("error", PStr (exn_msg e))])
  /\ (forall resp e,
        extraction_error (_to_dict resp) = Some e ->
        classifier_record (Ok resp)
        = PDict [("error", PStr "int too large to convert to float")])
  /\ (forall resp,
        extraction_error (_to_dict resp) = None ->
        classifier_record (Ok resp)
        = if py_truthy (_to_dict resp) then _to_dict resp else note_payload).
Proof.
  intros ND. split; [|split; [|split]].
  - destruct (@payloads_pointwise upload reply study_id models ND [] [])
      as (scores & payloads & R & L).
    exists scores, payloads. split; [exact R|].
    intros name. rewrite L.
    destruct (dict_get name models) as [model_id|]; [|reflexivity].
    destruct (finding_record reply study_id model_id); reflexivity.
  - reflexivity.
  - intros resp e H. cbn [classifier_record]. rewrite H.
    unfold extraction_error in H.
    destruct (_to_dict resp) as [ | | | | | | |d| ]; try discriminate H.
    cbn [isinstance_dict] in H.
    destruct (_extract_score (PDict d)) as [s|e'] eqn:R; [discriminate H|].
    injection H as ->.
    destruct (extract_score_raises d R) as [-> _]. reflexivity.
  - intros resp H. cbn [classifier_record]. rewrite H. reflexivity.
Qed.

(** On the table of the module with the sample replies and an oversized
    pneumothorax score: two error records, a note, the payload, and no
    record for a finding without model. *)
Lemma run_classifiers_with_payload_records_witness :
  exists scores payloads,
    run_classifiers_with_payload (Ok (fixed_remote no_reply oversized_reply)) "study"
                                 FINDING_MODELS tt
    = (Ok (scores, payloads), tt)
    /\ dict_get "Pneumothorax" payloads
       = Some (PDict [("error", PStr "int too large to convert to float")])
    /\ dict_get "Pneumothorax" scores = None
    /\ dict_get "Lung Opacity" payloads
       = Some (PDict [("error", PStr "model unavailable")])
    /\ dict_get "Pleural Effusion" payloads = Some note_payload
    /\ dict_get "Cardiomegaly" payloads
       = Some (PDict [("score", PFloat (Finite (7 # 10)))])
    /\ dict_get "Normal" payloads = None.
Proof.
  destruct (proj1 (@run_classifiers_with_payload_records no_reply oversized_reply "study"
                     FINDING_MODELS FINDING_MODELS_distinct))
    as (scores & payloads & R & L).
  exists scores, payloads. split; [exact R|].
  rewrite !L. repeat split; try (vm_compute; reflexivity).
  vm_compute in R. injection R as <- _. reflexivity.
Defined.

(** ** The narrative call with its payload *)

Lemma payload_record_ok (resp : pyval) :
  payload_record (Ok resp)
  = if py_truthy (py_or (normalized resp) (PDict []))
    then py_or (normalized resp) (PDict [])
    else note_payload.
Proof.
  cbn [payload_record]. rewrite <- normalized_to_dict. unfold py_or.
  destruct (py_truthy (normalized resp)) eqn:T; [rewrite T|]; reflexivity.
Qed.

Lemma findings_text_or_empty (p : pyval) :
  findings_text (py_or p (PDict [])) = findings_text p.
Proof.
  unfold py_or. destruct (py_truthy p) eqn:T; [reflexivity|].
  destruct p as [ | ? | ? | ? | ? | ? | ? | d | ? ]; try reflexivity.
  destruct d; [reflexivity | discriminate T].
Qed.

(** The narrative call with its payload never raises: it returns the text
    and the record that the outcome of the call yields. *)
Lemma run_vlm_with_payload_result (World : Type) (hoppr : HOPPR World)
      (study_id : string) (w : World) :
  run_vlm_with_payload (Ok hoppr) study_id w
  = (let (r, w') := prompt_model hoppr (vlm_call study_id) w in
     (Ok (PStr (narrative_of r), payload_record r), w')).
Proof.
  unfold run_vlm_with_payload, io_bind, io_try, io_lift, io_ret. simpl.
  destruct (prompt_model hoppr (vlm_call study_id) w) as [[resp|e] w'];
    [|reflexivity].
  rewrite payload_record_ok. unfold narrative_of.
  rewrite <- (findings_text_or_empty (normalized resp)).
  simpl. destruct (py_or (normalized resp) (PDict [])) as [ | ? | ? | ? | ? | ? | ? | d | ? ];
    try reflexivity.
  cbn [isinstance_dict findings_text]. rewrite str_field_test.
  destruct (str_field "findings" d) as [s|] eqn:F.
  { rewrite (str_field_get _ _ F). reflexivity. }
  rewrite has_field_of_dict.
  destruct (dict_get "response" d) as [x|] eqn:R; [|reflexivity].
  destruct (isinstance_dict x) eqn:D.
  2:{ destruct x; try discriminate D; reflexivity. }
  destruct x; try discriminate D.
  cbn [py_getitem]. rewrite R, str_field_test.
  destruct (str_field "findings" d0) as [s|] eqn:G; [|reflexivity].
  rewrite (str_field_get _ _ G). reflexivity.
Qed.

(** X10.  Whatever the remote does, the text that [run_vlm] returns is the
    text component of [run_vlm_with_payload], and the two leave the remote
    in the same state. *)
Theorem vlm_text_agrees (World : Type) (get_hoppr : pyresult (HOPPR World))
        (study_id : string) (w : World) :
  run_vlm get_hoppr study_id w
  = (let (r, w') := run_vlm_with_payload get_hoppr study_id w in
     (map_result fst r, w')).
Proof.
  destruct get_hoppr as [hoppr|e]; [|reflexivity].
  rewrite run_vlm_result, run_vlm_with_payload_result.
  destruct (prompt_model hoppr (vlm_call study_id) w) as [r w']. reflexivity.
Qed.

Lemma payload_record_truthy (r : pyresult pyval) : py_truthy (payload_record r) = true.
Proof.
  destruct r as [resp|e]; [|reflexivity]. cbn [payload_record].
  destruct (py_truthy (_to_dict resp)) eqn:T; [exact T | reflexivity].
Qed.

(** X18.  The payload that the variants with payloads keep for a call is
    never empty: [run_vlm_with_payload] never raises and returns, with the
    narrative, the normalised reply when that is not empty, the note "empty
    or unparsable payload" when it is, and the error text when the call
    raised. *)
Theorem run_vlm_with_payload_record (World : Type) (hoppr : HOPPR World)
        (study_id : string) (w : World) :
  run_vlm_with_payload (Ok hoppr) study_id w
  = (let (r, w') := prompt_model hoppr (vlm_call study_id) w in
     (Ok (PStr (narrative_of r), payload_record r), w'))
  /\ (forall r, py_truthy (payload_record r) = true)
  /\ (forall e, payload_record (Raise e) = PDict [("error", PStr (exn_msg e))])
  /\ (forall resp, py_truthy (_to_dict resp) = false ->
                   payload_record (Ok resp) = note_payload).
Proof.
  split; [apply run_vlm_with_payload_result|]. split; [apply payload_record_truthy|].
  split; [reflexivity|].
  intros resp T. cbn [payload_record]. rewrite T. reflexivity.
Qed.

(** A reply that is not JSON: empty narrative, and the note as payload. *)
Lemma run_vlm_with_payload_record_witness :
  run_vlm_with_payload (Ok (fixed_remote no_reply (fun _ => Ok (PStr "<html>"))))
                       "study" tt
  = (Ok (PStr EmptyString, note_payload), tt).
Proof.
  rewrite (proj1 (run_vlm_with_payload_record
                    (fixed_remote no_reply (fun _ => Ok (PStr "<html>"))) "study" tt)).
  cbn [fixed_remote prompt_model].
  rewrite (proj2 (proj2 (proj2 (run_vlm_with_payload_record
                    (fixed_remote no_reply (fun _ => Ok (PStr "<html>"))) "study" tt)))
             (PStr "<html>") eq_refl).
  reflexivity.
Defined.

(** ** Configuration *)

(** X7.  [get_hoppr] hands a present, non-empty HOPPR_API_KEY unchanged to
    the constructor of the client; when the key is missing or empty, each
    of [add_image], [run_classifiers], [run_vlm] and the two variants with
    payloads raises the "Missing HOPPR_API_KEY" error, [run_vlm] included,
    and none of them touches the remote. *)
Theorem missing_key_stops_every_call (World : Type)
        (connect : string -> pyresult (HOPPR World)) (env : environ) :
  (forall key, dict_get "HOPPR_API_KEY" env = Some key -> key <> EmptyString ->
               get_hoppr connect env = connect key)
  /\ (dict_get "HOPPR_API_KEY" env = None
      \/ dict_get "HOPPR_API_KEY" env = Some EmptyString ->
      forall study_id filename data models w,
        add_image (get_hoppr connect env) study_id filename data w
        = (Raise missing_api_key, w)
        /\ run_classifiers (get_hoppr connect env) study_id models w
           = (Raise missing_api_key, w)
        /\ run_vlm (get_hoppr connect env) study_id w = (Raise missing_api_key, w)
        /\ run_classifiers_with_payload (get_hoppr connect env) study_id models w
           = (Raise missing_api_key, w)
        /\ run_vlm_with_payload (get_hoppr connect env) study_id w
           = (Raise missing_api_key, w)).
Proof.
  split.
  - intros key H N. unfold get_hoppr, get_api_key. rewrite H.
    destruct (String.eqb_spec key EmptyString); [contradiction | reflexivity].
  - intros H study_id filename data models w.
    assert (G : get_hoppr connect env = Raise missing_api_key).
    { unfold get_hoppr, get_api_key. destruct H as [-> | ->]; reflexivity. }
    rewrite G. repeat split.
Qed.

(** An environment without the key, and one with it. *)
Lemma missing_key_stops_every_call_witness :
  run_vlm (get_hoppr (fun _ => Ok (fixed_remote no_reply sample_reply))
                     [("HOME", "/root")]) "study" tt
  = (Raise missing_api_key, tt)
  /\ get_hoppr (fun _ => Ok (fixed_remote no_reply sample_reply))
               [("HOPPR_API_KEY", "k-123")]
     = Ok (fixed_remote no_reply sample_reply).
Proof.
  split.
  - apply (proj2 (missing_key_stops_every_call
                    (fun _ => Ok (fixed_remote no_reply sample_reply))
                    [("HOME", "/root")]) (or_introl eq_refl) "study" "f" "d" [] tt).
  - apply (proj1 (missing_key_stops_every_call
                    (fun _ => Ok (fixed_remote no_reply sample_reply))
                    [("HOPPR_API_KEY", "k-123")]) "k-123" eq_refl).
    discriminate.
Defined.

(** ** When the model service is down *)

Lemma classifiers_down (World : Type) (hoppr : HOPPR World) (study_id : string)
      (models : list (string * option string)) :
  models_down hoppr ->
  forall scores w,
  exists w', io_for models (classify hoppr study_id) scores w = (Ok scores, w').
Proof.
  intros D. induction models as [|[name model_id] r IH]; intros scores w; cbn [io_for].
  - exists w. reflexivity.
  - unfold io_bind. rewrite classify_step.
    destruct (given_model model_id) as [m|]; [|apply IH].
    destruct (D (classifier_call study_id m) w) as (e & w1 & ->). apply IH.
Qed.

(** X9.  When every model call raises, a case still goes through:
    [run_classifiers] returns the empty score map, whose urgency is 0.0 and
    which is not likely normal at any threshold, and [run_vlm] returns the
    empty text. *)
Theorem models_down_case (World : Type) (hoppr : HOPPR World) (study_id : string)
        (models : list (string * option string)) (threshold : pyfloat) (w : World) :
  models_down hoppr ->
  exists scores w1 w2,
    run_classifiers (Ok hoppr) study_id models w = (Ok scores, w1)
    /\ scores = []
    /\ compute_urgency scores = Finite 0
    /\ is_likely_normal scores threshold = false
    /\ run_vlm (Ok hoppr) study_id w1 = (Ok (PStr EmptyString), w2).
Proof.
  intros D.
  destruct (@classifiers_down World hoppr study_id models D [] w) as [w1 R].
  destruct (D (vlm_call study_id) w1) as (e & w2 & V).
  exists [], w1, w2. repeat split; [exact R|].
  rewrite run_vlm_result, V. reflexivity.
Qed.

Lemma no_reply_down : models_down (fixed_remote upload_keywords_only no_reply).
Proof.
  intros c w. eexists. exists w. reflexivity.
Defined.

(** The table of the module against a remote whose model calls all fail. *)
Lemma models_down_case_witness :
  exists scores w1 w2,
    run_classifiers (Ok (fixed_remote upload_keywords_only no_reply)) "study"
                    FINDING_MODELS tt
    = (Ok scores, w1)
    /\ scores = []
    /\ compute_urgency scores = Finite 0
    /\ is_likely_normal scores lit_0_30 = false
    /\ run_vlm (Ok (fixed_remote upload_keywords_only no_reply)) "study" w1
       = (Ok (PStr EmptyString), w2).
Proof.
  apply (@models_down_case unit (fixed_remote upload_keywords_only no_reply) "study"
           FINDING_MODELS lit_0_30 tt no_reply_down).
Defined.

(** ** More on the urgency *)

Lemma numeric_incl (scores scores' : ScoreMap) :
  incl scores scores' -> numeric_scores scores' -> numeric_scores scores.
Proof.
  unfold numeric_scores. rewrite !Forall_forall. intros I H kv K. apply H, I, K.
Qed.

Lemma urgency_incl (scores scores' : ScoreMap) :
  incl scores scores' ->
  scores <> [] ->
  numeric_scores scores' ->
  fle (compute_urgency scores) (compute_urgency scores') = true.
Proof.
  intros I NE H'.
  assert (H : numeric_scores scores) by (exact (numeric_incl I H')).
  assert (NE' : scores' <> []).
  { destruct scores as [|kv r]; [congruence|].
    intros E. rewrite E in I. exact (I kv (or_introl eq_refl)). }
  destruct (urgency_is_maximum H NE) as [UI _].
  destruct (urgency_is_maximum H' NE') as [_ UM'].
  apply UM'. apply in_map_iff in UI. destruct UI as (kv & <- & K).
  apply in_map, I, K.
Qed.

(** X6.  Adding findings never lowers the urgency: when every entry of a
    non-empty score map is an entry of a second one, whose scores are
    numbers, the urgency of the first is at most that of the second. *)
Theorem compute_urgency_grows (scores scores' : ScoreMap) :
  incl scores scores' ->
  scores <> [] ->
  numeric_scores scores' ->
  fle (compute_urgency scores) (compute_urgency scores') = true.
Proof. apply urgency_incl. Qed.

(** A third finding added to two. *)
Lemma compute_urgency_grows_witness :
  fle (compute_urgency [("Cardiomegaly", Finite (1 # 2)); ("Normal", Finite (1 # 10))])
      (compute_urgency [("Pneumothorax", Finite (6 # 10)); ("Normal", Finite (1 # 10));
                        ("Cardiomegaly", Finite (1 # 2))])
  = true.
Proof.
  apply compute_urgency_grows.
  - intros kv [<-|[<-|[]]]; simpl; auto.
  - discriminate.
  - repeat constructor; discriminate.
Defined.

(** X4.  The urgency does not depend on the order of the entries: two
    score maps with the same entries, whose scores are numbers, have equal
    urgencies. *)
Theorem compute_urgency_order_independent (scores scores' : ScoreMap) :
  Permutation scores scores' ->
  numeric_scores scores ->
  feq (compute_urgency scores) (compute_urgency scores') = true.
Proof.
  intros P H.
  assert (H' : numeric_scores scores').
  { unfold numeric_scores. eapply Permutation_Forall; eassumption. }
  destruct scores as [|kv r].
  - apply Permutation_nil in P. subst. reflexivity.
  - assert (NE' : scores' <> []).
    { intros ->. apply Permutation_sym, Permutation_nil in P. discriminate P. }
    rewrite feq_fle. apply andb_true_iff. split.
    + apply urgency_incl; [|discriminate | exact H'].
      intros x K. eapply Permutation_in; eassumption.
    + apply urgency_incl; [|exact NE' | exact H].
      intros x K. eapply Permutation_in; [apply Permutation_sym|]; eassumption.
Qed.

(** Two findings in either order. *)
Lemma compute_urgency_order_independent_witness :
  feq (compute_urgency [("Normal", Finite (9 # 10)); ("Pneumothorax", Finite (8 # 10))])
      (compute_urgency [("Pneumothorax", Finite (8 # 10)); ("Normal", Finite (9 # 10))])
  = true.
Proof.
  apply compute_urgency_order_independent.
  - apply perm_swap.
  - repeat constructor; discriminate.
Defined.

Lemma probability_numeric (scores : ScoreMap) :
  probability_scores scores -> numeric_scores scores.
Proof.
  unfold probability_scores, numeric_scores. apply Forall_impl.
  intros kv [H _]. destruct (snd kv); try discriminate H; discriminate.
Qed.

(** A weighted probability is between the score and 1.25. *)
Lemma weighted_probability (kv : string * pyfloat) :
  fle (Finite 0) (snd kv) = true -> fle (snd kv) (Finite 1) = true ->
  fle (snd kv) (weighted kv) = true
  /\ fle (weighted kv) (Finite (5 # 4)) = true
  /\ (is_critical kv = false -> fle (weighted kv) (Finite 1) = true).
Proof.
  unfold weighted, weight, is_critical.
  destruct (snd kv) as [q| | |]; try discriminate.
  cbn [fle]. rewrite !Qle_bool_iff. intros L U.
  destruct (in_set (fst kv) CRITICAL_FINDINGS); cbn [fle fmul];
    rewrite !Qle_bool_iff, !Qred_correct; repeat split; try discriminate; lra.
Qed.

(** X5.  On a score map of probabilities the urgency is between 0.0 and
    1.25, it is at least every score of the map, and it is at most 1.0
    when the map has no critical finding. *)
Theorem compute_urgency_range (scores : ScoreMap) :
  probability_scores scores ->
  fle (Finite 0) (compute_urgency scores) = true
  /\ fle (compute_urgency scores) (Finite (5 # 4)) = true
  /\ (forall kv, In kv scores -> fle (snd kv) (compute_urgency scores) = true)
  /\ (critical_scores scores = [] -> fle (compute_urgency scores) (Finite 1) = true).
Proof.
  intros P. pose proof (probability_numeric P) as H.
  destruct scores as [|kv0 r] eqn:S.
  { repeat split; try reflexivity. intros kv []. }
  rewrite <- S in *.
  assert (NE : scores <> []) by (rewrite S; discriminate).
  destruct (urgency_is_maximum H NE) as [UI UM].
  apply in_map_iff in UI. destruct UI as (ku & EU & IU).
  unfold probability_scores in P. rewrite Forall_forall in P.
  destruct (P _ IU) as [L0 L1].
  destruct (weighted_probability ku L0 L1) as (A & B & C).
  repeat split.
  - rewrite <- EU. exact (fle_trans _ _ _ L0 A).
  - rewrite <- EU. exact B.
  - intros kv I. destruct (P _ I) as [K0 K1].
    destruct (weighted_probability kv K0 K1) as (A' & _ & _).
    apply fle_trans with (weighted kv); [exact A'|]. apply UM, in_map, I.
  - intros NC. rewrite <- EU. apply C.
    destruct (is_critical ku) eqn:K; [|reflexivity].
    assert (In (snd ku) (critical_scores scores)).
    { unfold critical_scores. apply in_map, filter_In. auto. }
    rewrite NC in H0. destruct H0.
Qed.

(** A critical finding at 0.9: the urgency is above 1.0, within 1.25. *)
Lemma compute_urgency_range_witness :
  let scores := [("Pneumothorax", Finite (9 # 10)); ("Normal", Finite (1 # 2))] in
  fle (Finite 1) (compute_urgency scores) = true
  /\ fle (compute_urgency scores) (Finite (5 # 4)) = true.
Proof.
  intros scores.
  assert (P : probability_scores scores) by (repeat constructor).
  split; [reflexivity|].
  exact (proj1 (proj2 (compute_urgency_range P))).
Defined.

(** ** Likely normal *)

Lemma flt_facts (v t : pyfloat) :
  flt v t = true -> not_nan v /\ fle v t = true /\ fle t v = false.
Proof.
  unfold flt. rewrite fgt_fle. intros H. apply andb_true_iff in H.
  destruct H as [A B]. apply negb_true_iff in B.
  repeat split; try assumption.
  destruct v; try discriminate A; discriminate.
Qed.

Lemma flt_widen (v t t' : pyfloat) :
  flt v t = true -> fle t t' = true -> flt v t' = true.
Proof.
  intros H L. destruct (flt_facts _ _ H) as (_ & A & B).
  unfold flt. rewrite fgt_fle. apply andb_true_iff. split.
  - exact (fle_trans _ _ _ A L).
  - apply negb_true_iff. destruct (fle t' v) eqn:C; [|reflexivity].
    rewrite (fle_trans _ _ _ L C) in B. discriminate B.
Qed.

Lemma likely_normal_all (scores : ScoreMap) (t : pyfloat) :
  is_likely_normal scores t = true
  <-> scores <> [] /\ forall kv, In kv scores -> flt (snd kv) t = true.
Proof.
  unfold is_likely_normal. rewrite andb_true_iff, forallb_forall.
  destruct scores; split; intros [A B]; split; try assumption;
    try discriminate; try reflexivity; congruence.
Qed.

Lemma likely_normal_numeric (scores : ScoreMap) (t : pyfloat) :
  is_likely_normal scores t = true -> numeric_scores scores.
Proof.
  intros H. apply likely_normal_all in H. destruct H as [_ H].
  apply Forall_forall. intros kv I. exact (proj1 (flt_facts _ _ (H kv I))).
Qed.

(** X12.  A case stays likely normal when findings are removed from it (as
    long as one is left) and when the threshold is raised. *)
Theorem is_likely_normal_monotone (scores scores' : ScoreMap) (t t' : pyfloat) :
  is_likely_normal scores' t = true ->
  incl scores scores' ->
  scores <> [] ->
  fle t t' = true ->
  is_likely_normal scores t' = true.
Proof.
  intros H I NE L. apply likely_normal_all in H. destruct H as [_ H].
  apply likely_normal_all. split; [exact NE|].
  intros kv K. apply flt_widen with t; [apply H, I, K | exact L].
Qed.

(** Two findings below 0.30, and one of them below 0.4. *)
Lemma is_likely_normal_monotone_witness :
  is_likely_normal [("Cardiomegaly", Finite (2 # 10))] lit_0_4 = true.
Proof.
  apply (@is_likely_normal_monotone
           [("Cardiomegaly", Finite (2 # 10))]
           [("Normal", Finite (1 # 10)); ("Cardiomegaly", Finite (2 # 10))]
           lit_0_30 lit_0_4).
  - reflexivity.
  - intros kv [<-|[]]. right. left. reflexivity.
  - discriminate.
  - reflexivity.
Defined.

Lemma fle_scaled (t : pyfloat) :
  fle (Finite 0) t = true -> fle t (fmul (Finite (5 # 4)) t) = true.
Proof.
  destruct t as [q| | |]; try discriminate; [|reflexivity].
  cbn [fle fmul]. rewrite !Qle_bool_iff, Qred_correct. intros H. lra.
Qed.

Lemma likely_normal_bound (scores : ScoreMap) (t : pyfloat) :
  is_likely_normal scores t = true ->
  (fle (Finite 0) t = true ->
   fle (compute_urgency scores) (fmul (Finite (5 # 4)) t) = true)
  /\ (critical_scores scores = [] -> fle (compute_urgency scores) t = true).
Proof.
  intros H. pose proof (likely_normal_numeric _ _ H) as N.
  apply likely_normal_all in H. destruct H as [NE H].
  destruct (urgency_is_maximum N NE) as [UI _].
  apply in_map_iff in UI. destruct UI as (ku & EU & IU).
  destruct (flt_facts _ _ (H ku IU)) as (_ & L & _).
  rewrite <- EU. destruct (is_critical ku) eqn:K.
  - rewrite (weighted_critical _ K). split.
    + intros _. rewrite fmul_fle by (left; reflexivity). exact L.
    + intros NC. assert (I : In (snd ku) (critical_scores scores)).
      { unfold critical_scores. apply in_map, filter_In. auto. }
      rewrite NC in I. destruct I.
  - rewrite (weighted_other _ K), !fle_fmul_one. split.
    + intros P. exact (fle_trans _ _ _ L (fle_scaled _ P)).
    + intros _. exact L.
Qed.

(** X13.  The urgency of a case that is likely normal at a threshold that
    is not negative is at most 1.25 times the threshold, and at most the
    threshold when the case has no critical finding. *)
Theorem likely_normal_urgency_bound (scores : ScoreMap) (t : pyfloat) :
  is_likely_normal scores t = true ->
  fle (Finite 0) t = true ->
  fle (compute_urgency scores) (fmul (Finite (5 # 4)) t) = true
  /\ (critical_scores scores = [] -> fle (compute_urgency scores) t = true).
Proof.
  intros H P. destruct (likely_normal_bound _ _ H) as [A B]. split; [exact (A P) | exact B].
Qed.

(** A critical finding just under the threshold 0.4: urgency under 0.5. *)
Lemma likely_normal_urgency_bound_witness :
  fle (compute_urgency [("Pneumothorax", Finite (39 # 100)); ("Normal", Finite (1 # 10))])
      (fmul (Finite (5 # 4)) lit_0_4)
  = true.
Proof.
  apply (@likely_normal_urgency_bound
           [("Pneumothorax", Finite (39 # 100)); ("Normal", Finite (1 # 10))] lit_0_4);
    reflexivity.
Defined.

(** X11.  A case that is likely normal at the default threshold 0.30 has
    an urgency in the lowest band: its verdict is "No strong signs", green,
    and its dot is the green one. *)
Theorem likely_normal_is_green (scores : ScoreMap) :
  is_likely_normal scores lit_0_30 = true ->
  patient_verdict (compute_urgency scores) = ("No strong signs", "green")
  /\ color_dot (compute_urgency scores) = "🟢".
Proof.
  intros H. destruct (likely_normal_bound _ _ H) as [A _].
  specialize (A eq_refl).
  assert (L4 : fle lit_0_4 (compute_urgency scores) = false).
  { destruct (fle lit_0_4 (compute_urgency scores)) eqn:C; [|reflexivity].
    pose proof (fle_trans _ _ _ C A) as F. vm_compute in F. discriminate F. }
  assert (L7 : fle lit_0_7 (compute_urgency scores) = false).
  { destruct (fle lit_0_7 (compute_urgency scores)) eqn:C; [|reflexivity].
    pose proof (fle_trans _ _ _ C A) as F. vm_compute in F. discriminate F. }
  unfold patient_verdict, color_dot, fge. rewrite L4, L7. split; reflexivity.
Qed.

(** A critical finding at 0.29: urgency 0.3625, still green. *)
Lemma likely_normal_is_green_witness :
  patient_verdict (compute_urgency [("Pneumothorax", Finite (29 # 100))])
  = ("No strong signs", "green").
Proof.
  apply (@likely_normal_is_green [("Pneumothorax", Finite (29 # 100))]).
  reflexivity.
Defined.

(** ** Verdicts and labels *)

(** X14.  The verdict never gets milder as the score grows: green, amber
    and red follow the order of the scores; the verdict of nan is the
    green one; and the text goes with the tone. *)
Theorem patient_verdict_monotone :
  (forall a b, fle a b = true ->
     (tone_rank (snd (patient_verdict a)) <= tone_rank (snd (patient_verdict b)))%nat)
  /\ patient_verdict NaN = ("No strong signs", "green")
  /\ (forall s, patient_verdict s = ("Needs prompt attention", "red")
                \/ patient_verdict s = ("Possibility present", "amber")
                \/ patient_verdict s = ("No strong signs", "green")).
Proof.
  split; [|split].
  - intros a b L. unfold patient_verdict, fge.
    destruct (fle lit_0_7 a) eqn:A7.
    { rewrite (fle_trans _ _ _ A7 L). apply le_n. }
    destruct (fle lit_0_4 a) eqn:A4.
    { rewrite (fle_trans _ _ _ A4 L). destruct (fle lit_0_7 b); cbv; lia. }
    destruct (fle lit_0_7 b); [cbv; lia|]. destruct (fle lit_0_4 b); cbv; lia.
  - reflexivity.
  - intros s. unfold patient_verdict.
    destruct (fge s lit_0_7); [auto|]. destruct (fge s lit_0_4); auto.
Qed.

(** 0.39 is green and 0.41 amber. *)
Lemma patient_verdict_monotone_witness :
  (tone_rank (snd (patient_verdict (Finite (39 # 100))))
   <= tone_rank (snd (patient_verdict (Finite (41 # 100)))))%nat.
Proof.
  apply (proj1 patient_verdict_monotone). reflexivity.
Defined.

Lemma dict_get_value (V : Type) (d : list (string * V)) (k : string) (v : V) :
  dict_get k d = Some v -> In v (map snd d).
Proof.
  induction d as [|[k' v'] r IH]; simpl; [discriminate|].
  destruct (String.eqb k' k); [intros [= ->]; left; reflexivity | right; auto].
Qed.

Lemma labels_are_not_names :
  forallb (fun label => negb (dict_mem label patient_label_mapping))
          (map snd patient_label_mapping) = true.
Proof. vm_compute. reflexivity. Qed.

Lemma finding_labels_distinct :
  forallb (fun a => forallb (fun b => implb (String.eqb (patient_label a) (patient_label b))
                                            (String.eqb a b))
                            (dict_keys FINDING_MODELS))
          (dict_keys FINDING_MODELS) = true.
Proof. vm_compute. reflexivity. Qed.

(** X15.  Labelling twice is labelling once: a label is never itself the
    name of a finding with another label; and two different findings of
    the model table never get the same label. *)
Theorem patient_label_stable :
  (forall name, patient_label (patient_label name) = patient_label name)
  /\ (forall a b, In a (dict_keys FINDING_MODELS) -> In b (dict_keys FINDING_MODELS) ->
                  a <> b -> patient_label a <> patient_label b).
Proof.
  split.
  - intros name. unfold patient_label at 2 3.
    destruct (dict_get name patient_label_mapping) as [label|] eqn:E.
    + apply dict_get_value in E.
      pose proof (proj1 (forallb_forall _ _) labels_are_not_names label E) as N.
      unfold patient_label, dict_mem in *.
      destruct (dict_get label patient_label_mapping); [discriminate N | reflexivity].
    + unfold patient_label. rewrite E. reflexivity.
  - intros a b IA IB N E. apply N.
    pose proof (proj1 (forallb_forall _ _) finding_labels_distinct a IA) as F.
    pose proof (proj1 (forallb_forall _ _) F b IB) as G.
    rewrite E, String.eqb_refl in G. simpl in G. apply String.eqb_eq, G.
Qed.

(** Two findings that share a model have different labels. *)
Lemma patient_label_stable_witness :
  patient_label "Consolidation" <> patient_label "Lung Opacity".
Proof.
  apply (proj2 patient_label_stable "Consolidation" "Lung Opacity").
  - vm_compute. tauto.
  - vm_compute. tauto.
  - discriminate.
Defined.

(** ** Scores and shapes *)

Lemma has_field_of_other_TypeError (T : pyval -> bool) (key : string) (p : pyval) :
  isinstance_dict p = false ->
  has_field_of T key p = Ok false
  \/ exists e, has_field_of T key p = Raise e /\ is_TypeError e = true.
Proof.
  intros H. unfold has_field_of.
  destruct p; try discriminate H; simpl;
    try (right; eexists; split; reflexivity).
  - destruct (is_substring key s); simpl;
      [right; eexists; split; reflexivity | left; reflexivity].
  - destruct (existsb (is_str key) l); simpl;
      [right; eexists; split; reflexivity | left; reflexivity].
Qed.

(** X16.  On a mapping [_extract_score] returns, or raises
    [OverflowError]; it raises only when the numeric "score" that it
    selects, at the top level or in the nested "response" mapping, is an
    [int] of magnitude [2 ^ 1024 - 2 ^ 970] or more.  On a value that is
    not a mapping it never yields a score: it returns absence, or raises a
    [TypeError] (as on a text that contains the word score). *)
Theorem extract_score_shapes (payload : pyval) :
  (isinstance_dict payload = true ->
   (exists s, _extract_score payload = Ok s)
   \/ _extract_score payload = Raise overflow_error)
  /\ (forall d e,
        payload = PDict d ->
        _extract_score payload = Raise e ->
        e = overflow_error
        /\ exists n,
            (2 ^ 1024 - 2 ^ 970 <= Z.abs n)%Z
            /\ (dict_get "score" d = Some (PInt n)
                \/ numeric_score d = None
                   /\ exists inner, dict_get "response" d = Some (PDict inner)
                                    /\ dict_get "score" inner = Some (PInt n)))
  /\ (isinstance_dict payload = false ->
      _extract_score payload = Ok None
      \/ exists e, _extract_score payload = Raise e /\ is_TypeError e = true).
Proof.
  split; [|split].
  - intros H. destruct payload; try discriminate H. apply extract_score_dict.
  - intros d e -> R. apply extract_score_raises, R.
  - intros H. unfold _extract_score.
    destruct (@has_field_of_other_TypeError isinstance_int_float "score" payload H)
      as [-> | (e & -> & T)]; [|right; exists e; split; [reflexivity | exact T]].
    simpl.
    destruct (@has_field_of_other_TypeError isinstance_dict "response" payload H)
      as [-> | (e & -> & T)]; [left; reflexivity|].
    right. exists e. split; [reflexivity | exact T].
Qed.

(** A mapping without score, one with a nested score too large, a text
    without the word score, and one with it. *)
Lemma extract_score_shapes_witness :
  ((exists s, _extract_score (PDict [("findings", PStr "clear")]) = Ok s)
   \/ _extract_score (PDict [("findings", PStr "clear")]) = Raise overflow_error)
  /\ (exists n,
        (2 ^ 1024 - 2 ^ 970 <= Z.abs n)%Z
        /\ (dict_get "score" [("response", PDict [("score", PInt (- 10 ^ 400))])]
            = Some (PInt n)
            \/ numeric_score [("response", PDict [("score", PInt (- 10 ^ 400))])] = None
               /\ exists inner,
                   dict_get "response" [("response", PDict [("score", PInt (- 10 ^ 400))])]
                   = Some (PDict inner)
                   /\ dict_get "score" inner = Some (PInt n)))
  /\ (_extract_score (PStr "no number here") = Ok None
      \/ exists e, _extract_score (PStr "no number here") = Raise e
                    /\ is_TypeError e = true)
  /\ raised (_extract_score (PStr "the score is 0.9")) = true.
Proof.
  split; [|split; [|split]].
  - apply (proj1 (extract_score_shapes (PDict [("findings", PStr "clear")]))). reflexivity.
  - apply (proj1 (proj2 (extract_score_shapes
                           (PDict [("response", PDict [("score", PInt (- 10 ^ 400))])])))
             [("response", PDict [("score", PInt (- 10 ^ 400))])] overflow_error eq_refl).
    vm_compute. reflexivity.
  - apply (proj2 (proj2 (extract_score_shapes (PStr "no number here")))). reflexivity.
  - reflexivity.
Defined.

(** X17.  Against a remote with fixed replies, findings of the table that
    share a model identifier get the same score, or are absent together. *)
Theorem aliases_score_alike (upload reply : call -> pyresult pyval) (study_id : string)
        (models : list (string * option string)) (a b : string) (model_id : option string) :
  NoDup (dict_keys models) ->
  dict_get a models = Some model_id ->
  dict_get b models = Some model_id ->
  exists scores,
    run_classifiers (Ok (fixed_remote upload reply)) study_id models tt = (Ok scores, tt)
    /\ dict_get a scores = dict_get b scores.
Proof.
  intros ND A B.
  destruct (@classifiers_pointwise upload reply study_id models ND [])
    as (scores & R & L).
  exists scores. split; [exact R|]. rewrite !L, A, B. reflexivity.
Qed.

(** Consolidation and Lung Opacity, which share the opacity model. *)
Lemma aliases_score_alike_witness :
  exists scores,
    run_classifiers (Ok (fixed_remote no_reply sample_reply)) "study" FINDING_MODELS tt
    = (Ok scores, tt)
    /\ dict_get "Consolidation" scores = dict_get "Lung Opacity" scores.
Proof.
  apply (@aliases_score_alike no_reply sample_reply "study" FINDING_MODELS
           "Consolidation" "Lung Opacity"
           (Some "mc_chestradiography_air_space_opacity:v1.20250828")
           FINDING_MODELS_distinct); reflexivity.
Defined.
